(** * json-to-crystal: type synthesis from JSON values

    A shallow embedding of the two implementations shipped in the repository:
    - [TS]: [src/json-to-crystal.ts] (class [JsonToCrystal] with [parse],
      [parseScope], [parseClass], [format], [crystalType], [arrayType]);
    - [JS]: the JavaScript implementation ([Util], [CrystalNamedTuple],
      [CrystalArray], [CrystalClass], [JsonToCrystal]).

    Both build their output by string concatenation, so the embedding does
    the same.  The functions of lodash that the code calls ([_.snakeCase],
    [_.camelCase], [_.upperFirst], [_.uniq]) are modelled in [Lodash] for
    strings of 7-bit characters; [JSON.parse] is a parameter. *)

From Stdlib Require Import List String Ascii Bool Arith NArith ZArith QArith Lia.
Import ListNotations.
Local Close Scope Q_scope.
Local Open Scope string_scope.

(** ** JavaScript strings (7-bit fragment) *)

Module JsString.

Definition code (c : ascii) : N := N_of_ascii c.

Definition between (lo hi : N) (c : ascii) : bool :=
  ((lo <=? code c) && (code c <=? hi))%N.

(** The character classes [[a-z]], [[A-Z]] and [\d]. *)
Definition isLower : ascii -> bool := between 97 122.
Definition isUpper : ascii -> bool := between 65 90.
Definition isDigit : ascii -> bool := between 48 57.
Definition isAlpha (c : ascii) : bool := isLower c || isUpper c.
Definition isAlnum (c : ascii) : bool := isAlpha c || isDigit c.

(** [String.prototype.toLowerCase] / [toUpperCase] on one character. *)
Definition lowerChar (c : ascii) : ascii :=
  if isUpper c then ascii_of_N (code c + 32) else c.
Definition upperChar (c : ascii) : ascii :=
  if isLower c then ascii_of_N (code c - 32) else c.

Definition chars : string -> list ascii := list_ascii_of_string.
Definition str : list ascii -> string := string_of_list_ascii.

Definition toLowerCase (s : string) : string := str (map lowerChar (chars s)).

(** [s.charAt(0)]: the first character, or nothing for the empty string. *)
Definition charAt0 (s : string) : option ascii :=
  match s with
  | EmptyString => None
  | String c _ => Some c
  end.

(** [s.substr(1)]. *)
Definition substr1 (s : string) : string :=
  match s with
  | EmptyString => EmptyString
  | String _ t => t
  end.

(** Modelled from the spec: [String.prototype.repeat] is supplied by the
    repository's [./string] module, which is not among the sources; the
    spec has two spaces of indentation per nesting level, that is [n]
    copies of the string. *)
Fixpoint repeat (s : string) (n : nat) : string :=
  match n with
  | O => EmptyString
  | S k => s ++ repeat s k
  end.

(** [xs.join(sep)]. *)
Definition join (sep : string) (xs : list string) : string := String.concat sep xs.

(** [str.replace(/\.0/g, '.1')]: matches are found left to right and do
    not overlap. *)
Fixpoint replaceDotZero (s : string) : string :=
  match s with
  | EmptyString => EmptyString
  | String c t =>
      match t with
      | String d t' =>
          if (Ascii.eqb c "." && Ascii.eqb d "0")%bool
          then String "." (String "1" (replaceDotZero t'))
          else String c (replaceDotZero t)
      | EmptyString => String c EmptyString
      end
  end.

End JsString.

(** ** The lodash functions used by the code *)

Module Lodash.
Import JsString.

(** *** [_.uniq]

    lodash's [baseUniq] walks the array and pushes a value onto [result]
    unless [result] already holds it. *)
Fixpoint baseUniq (array result : list string) : list string :=
  match array with
  | [] => result
  | value :: rest =>
      if existsb (String.eqb value) result
      then baseUniq rest result
      else baseUniq rest (result ++ [value])%list
  end.

Definition uniq (array : list string) : list string := baseUniq array [].

(** *** [_.words]

    [string.match(re)] with a global regular expression: the matches from
    left to right, each search resuming where the last match ended.  [re]
    gives the length of the match starting at the head of its argument.
    [skip] counts the characters of the current match still to pass. *)
Fixpoint matchAll (re : list ascii -> option nat) (skip : nat) (s : list ascii)
  : list (list ascii) :=
  match s with
  | [] => []
  | _ :: t =>
      match skip with
      | S k => matchAll re k t
      | O =>
          match re s with
          | Some (S n) => firstn (S n) s :: matchAll re n t
          | _ => matchAll re 0 t
          end
      end
  end.

(** Length of the longest prefix whose characters all satisfy [p]: a
    greedy [p+]. *)
Fixpoint run (p : ascii -> bool) (s : list ascii) : nat :=
  match s with
  | c :: t => if p c then S (run p t) else 0
  | [] => 0
  end.

Definition plus (p : ascii -> bool) (s : list ascii) : option nat :=
  match run p s with
  | O => None
  | n => Some n
  end.

(** [reAsciiWord = /[^\x00-\x2f\x3a-\x40\x5b-\x60\x7b-\x7f]+/g]. *)
Definition asciiWordChar (c : ascii) : bool :=
  negb (between 0 47 c || between 58 64 c || between 91 96 c || between 123 127 c).

Definition reAsciiWord : list ascii -> option nat := plus asciiWordChar.

(** [reHasUnicodeWord =
     /[a-z][A-Z]|[A-Z]{2}[a-z]|[0-9][a-zA-Z]|[a-zA-Z][0-9]|[^a-zA-Z0-9 ]/]. *)
Fixpoint hasUnicodeWord (s : list ascii) : bool :=
  match s with
  | [] => false
  | a :: t =>
      negb (isAlnum a || Ascii.eqb a " ")
      || match t with
         | b :: t' =>
             (isLower a && isUpper b)
             || (isUpper a && isUpper b
                 && match t' with c :: _ => isLower c | [] => false end)
             || (isDigit a && isAlpha b)
             || (isAlpha a && isDigit b)
         | [] => false
         end
      || hasUnicodeWord t
  end.

(** On 7-bit characters [rsBreak] is every character that is neither a
    letter nor a digit, and [rsMisc] matches nothing, so [rsMiscLower] is
    [[a-z]] and [rsMiscUpper] is [[A-Z]]. *)
Definition isBreak (c : ascii) : bool := negb (isAlnum c).

(** The character after a match, for the lookaheads. *)
Definition after (n : nat) (s : list ascii) : option ascii := hd_error (skipn n s).

(** [[A-Z]?r]: greedy, so [r] is first tried after the capital. *)
Definition optUpper (r : list ascii -> option nat) (s : list ascii) : option nat :=
  match s with
  | c :: t =>
      if isUpper c
      then match r t with
           | Some n => Some (S n)
           | None => r s
           end
      else r s
  | [] => r s
  end.

(** [[a-z]+(?=[break]|[A-Z]|$)].  A shorter run is followed by a lower-case
    letter, so only the longest run can pass the lookahead. *)
Definition lowerThenBoundary (s : list ascii) : option nat :=
  match plus isLower s with
  | Some n =>
      match after n s with
      | None => Some n
      | Some c => if isBreak c || isUpper c then Some n else None
      end
  | None => None
  end.

(** [[A-Z]+(?=[break]|[A-Z][a-z]|$)].  When the longest run is followed by
    a lower-case letter the match gives back one capital. *)
Definition upperThenBoundary (s : list ascii) : option nat :=
  match plus isUpper s with
  | Some n =>
      match after n s with
      | None => Some n
      | Some c =>
          if isBreak c then Some n
          else if isLower c && (2 <=? n)%nat then Some (n - 1)%nat
          else None
      end
  | None => None
  end.

(** [\b] after a letter, or one of the listed characters:
    [(?=\b|[a-z_])] for the upper-case ordinals, [(?=\b|[A-Z_])] for the
    lower-case ones.  [\w] is [[A-Za-z0-9_]]. *)
Definition ordinalLookahead (upper : bool) (next : option ascii) : bool :=
  match next with
  | None => true
  | Some c =>
      negb (isAlnum c || Ascii.eqb c "_")
      || Ascii.eqb c "_"
      || (if upper then isLower c else isUpper c)
  end.

(** [1st|2nd|3rd|(?![123])\dth], case chosen by [upper]. *)
Definition ordinalSuffix (upper : bool) (d c1 c2 : ascii) : bool :=
  let lit (x y : ascii) :=
    if upper then Ascii.eqb c1 (upperChar x) && Ascii.eqb c2 (upperChar y)
    else Ascii.eqb c1 x && Ascii.eqb c2 y in
  (Ascii.eqb d "1" && lit "s" "t")%char
  || (Ascii.eqb d "2" && lit "n" "d")%char
  || (Ascii.eqb d "3" && lit "r" "d")%char
  || (isDigit d && negb (Ascii.eqb d "1" || Ascii.eqb d "2" || Ascii.eqb d "3")
      && lit "t" "h")%char.

(** [\d*(?:1st|2nd|3rd|(?![123])\dth)(?=...)]: the digit of the suffix is
    the last one of the run of digits. *)
Definition ordinal (upper : bool) (s : list ascii) : option nat :=
  match run isDigit s with
  | O => None
  | S m =>
      match skipn m s with
      | d :: c1 :: c2 :: rest =>
          if ordinalSuffix upper d c1 c2 && ordinalLookahead upper (hd_error rest)
          then Some (S m + 2)%nat
          else None
      | _ => None
      end
  end.

Fixpoint firstMatch (alts : list (list ascii -> option nat)) (s : list ascii)
  : option nat :=
  match alts with
  | [] => None
  | r :: rest =>
      match r s with
      | Some n => Some n
      | None => firstMatch rest s
      end
  end.

(** [reUnicodeWord], its alternatives in lodash's order (the last one,
    [rsEmoji], needs characters outside the 7-bit range). *)
Definition reUnicodeWord : list ascii -> option nat :=
  firstMatch
    [ optUpper lowerThenBoundary;
      upperThenBoundary;
      optUpper (plus isLower);
      plus isUpper;
      ordinal true;
      ordinal false;
      plus isDigit ].

Definition asciiWords (s : list ascii) : list (list ascii) := matchAll reAsciiWord 0 s.
Definition unicodeWords (s : list ascii) : list (list ascii) := matchAll reUnicodeWord 0 s.

Definition words (s : list ascii) : list (list ascii) :=
  if hasUnicodeWord s then unicodeWords s else asciiWords s.

(** [createCompounder]: the words of the string once apostrophes are
    removed ([deburr] leaves 7-bit characters alone). *)
Definition compoundWords (s : string) : list string :=
  map str (words (filter (fun c => negb (Ascii.eqb c "'")) (chars s))).

(** [_.upperFirst]. *)
Definition upperFirst (s : string) : string :=
  match s with
  | EmptyString => EmptyString
  | String c t => String (upperChar c) t
  end.

(** [_.capitalize]. *)
Definition capitalize (s : string) : string := upperFirst (toLowerCase s).

(** [_.snakeCase]: the lower-cased words joined by ["_"]. *)
Definition snakeCase (s : string) : string :=
  join "_" (map toLowerCase (compoundWords s)).

(** [_.camelCase]: the first word lower-cased, the others capitalized. *)
Definition camelCase (s : string) : string :=
  match compoundWords s with
  | [] => EmptyString
  | w :: ws => toLowerCase w ++ join "" (map capitalize ws)
  end.

End Lodash.

(** ** JSON values as JavaScript sees them *)

(** A JavaScript number is an IEEE double: a finite value is a rational, and
    [%], [<], [>] and [===] are exact on finite values. *)
Inductive number :=
| Finite (q : Q)
| Infinity (negative : bool)
| NaN.

Set Warnings "-register-all".

(** The members of an object are listed in the order of [Object.keys]; as in
    a JavaScript object, no key occurs twice. *)
Inductive json :=
| JNull
| JBool (b : bool)
| JNumber (n : number)
| JString (s : string)
| JArray (items : list json)
| JObject (members : list (string * json)).

Definition int (z : Z) : json := JNumber (Finite (inject_Z z)).

Module JsNumber.

(** [val % 1]: the remainder has the sign of [val]; for an infinite value
    or NaN it is NaN. *)
Definition mod1 (val : number) : number :=
  match val with
  | Finite q => Finite (Qmake (Z.rem (Qnum q) (Zpos (Qden q))) (Qden q))
  | _ => NaN
  end.

(** [a === b] on numbers: NaN equals nothing. *)
Definition strictEq (a b : number) : bool :=
  match a, b with
  | Finite x, Finite y => Qeq_bool x y
  | Infinity s, Infinity t => Bool.eqb s t
  | _, _ => false
  end.

(** [a < b]. *)
Definition lt (a b : number) : bool :=
  match a, b with
  | Finite x, Finite y => negb (Qle_bool y x)
  | Finite _, Infinity neg => negb neg
  | Infinity neg, Finite _ => neg
  | Infinity s, Infinity t => s && negb t
  | _, _ => false
  end.

Definition gt (a b : number) : bool := lt b a.

Definition ofZ (z : Z) : number := Finite (inject_Z z).

End JsNumber.

(** What a call does: it returns a string, returns [undefined], or throws. *)
Inductive error :=
| SyntaxError
| JsonParseError
| UnsupportedDataType (typeName : string).

Inductive outcome :=
| Returns (text : string)
| ReturnsUndefined
| Throws (e : error).

Definition LF : string := String "010" EmptyString.
Definition quote : string := String "034" EmptyString.

(** ** Code shared verbatim by the two implementations *)

Module Common.
Import JsString Lodash.

(** The table [numbers] of [format] / [formatKey]. *)
Definition numbers (c : ascii) : option string :=
  match c with
  | "0"%char => Some "zero_" | "1"%char => Some "one_"
  | "2"%char => Some "two_" | "3"%char => Some "three_"
  | "4"%char => Some "four_" | "5"%char => Some "five_"
  | "6"%char => Some "six_" | "7"%char => Some "seven_"
  | "8"%char => Some "eight_" | "9"%char => Some "nine_"
  | _ => None
  end.

(** [str.match(/^\d+$/)]. *)
Definition allDigits (s : string) : bool :=
  match chars s with
  | [] => false
  | cs => forallb isDigit cs
  end.

(** [str.charAt(0).match(re)] for a one-character class. *)
Definition firstIs (p : ascii -> bool) (s : string) : bool :=
  match charAt0 s with
  | Some c => p c
  | None => false
  end.

(** [numbers[str.charAt(0)] + str.substr(1)]; a missing entry would make
    the sum start with ["undefined"]. *)
Definition spellFirst (s : string) : string :=
  match charAt0 s with
  | Some c =>
      match numbers c with
      | Some word => word ++ substr1 s
      | None => "undefined" ++ substr1 s
      end
  | None => "undefined"
  end.

(** [format] of the TypeScript class and [Util.formatKey]: the same
    function.  [None] is an absent ([undefined]) argument. *)
Definition format (str : option string) : string :=
  match str with
  | None => EmptyString
  | Some EmptyString => EmptyString
  | Some s =>
      if allDigits s then snakeCase ("num" ++ s)
      else if firstIs isDigit s then snakeCase (spellFirst s)
      else snakeCase s
  end.

(** The [number] case of [crystalType]. *)
Definition numberType (val : number) : string :=
  if JsNumber.strictEq (JsNumber.mod1 val) (JsNumber.ofZ 0) then
    if JsNumber.gt val (JsNumber.ofZ (-2147483648))
       && JsNumber.lt val (JsNumber.ofZ 2147483647)
    then "Int32"
    else "Int64"
  else "Float64".

(** The last three lines of [arrayType] and of [CrystalArray.toString]. *)
Definition unionOf (types : list string) : string :=
  let unique := uniq types in
  let unique := match unique with
                | [] => (unique ++ ["JSON::Any"])%list
                | _ => unique
                end in
  "Array(" ++ join " | " unique ++ ")".

End Common.

(** ** [src/json-to-crystal.ts] *)

Module TS.
Import JsString Lodash Common.

Section JsonToCrystal.

(** The two fields set by the constructor. *)
Variable baseClass : string.
Variable allNilable : bool.

Definition indent (tabs : Z) : string :=
  if (tabs <=? 0)%Z then EmptyString else repeat "  " (Z.to_nat tabs).

(** [crystalType], with the recursive call [this.arrayType] as an
    argument. *)
Definition crystalTypeWith (arrayType : list json -> string) (val : json) : string :=
  match val with
  | JNull => "JSON::Any"
  | JString _ => "String"
  | JNumber n => numberType n
  | JBool _ => "Bool"
  | JArray arr => arrayType arr
  | JObject _ => "class"
  end.

(** One turn of the [for] loop of [parseClass]: the text added to [str]
    for [key]. *)
Definition fieldEntry (crystalType parseScope : json -> string)
           (indentLevel : Z) (key : string) (val : json) : string :=
  let formattedKey := format (Some key) in
  indent indentLevel
  ++ formattedKey ++ ": { "
  ++ (if negb (key =? formattedKey) then "key: " ++ quote ++ key ++ quote ++ ", "
      else EmptyString)
  ++ (if allNilable then "nilable: true, " else EmptyString)
  ++ (if crystalType val =? "class"
      then "type: " ++ key ++ " }," ++ LF
      else "type: " ++ parseScope val ++ " }," ++ LF).

(** [Object.keys(subclasses)] paired with their values: the members
    whose kind is ["class"], in the order of the loop.  Assigning
    [subclasses["__proto__"]] sets the prototype of [subclasses] and
    adds no key. *)
Definition isSubclass (crystalType : json -> string) (key : string) (val : json) : bool :=
  (crystalType val =? "class") && negb (key =? "__proto__").

(** The body of [parseClass] on the members of [scope]. *)
Definition classText (crystalType parseScope : json -> string)
           (parseClass : string -> json -> Z -> string)
           (name : string) (members : list (string * json)) (indentLevel : Z)
  : string :=
  let name := if firstIs isLower name then upperFirst (camelCase name) else name in
  indent indentLevel ++ "class " ++ name ++ LF ++ LF
  ++ indent (indentLevel + 1) ++ "JSON.mapping({" ++ LF
  ++ join EmptyString
       (map (fun '(key, val) => fieldEntry crystalType parseScope (indentLevel + 2) key val)
            members)
  ++ indent (indentLevel + 1) ++ "})" ++ LF ++ LF
  ++ join (LF ++ LF)
       (flat_map (fun '(key, val) =>
                    if isSubclass crystalType key val
                    then [parseClass key val (indentLevel + 1)%Z]
                    else [])
                 members)
  ++ indent indentLevel ++ "end" ++ LF.

Fixpoint parseScope (scope : json) : string :=
  match scope with
  | JArray arr => unionOf (map parseScope arr)
  | JObject members =>
      classText (crystalTypeWith (fun arr => unionOf (map parseScope arr)))
                parseScope parseClass baseClass members 0
  | _ => crystalTypeWith (fun _ => EmptyString) scope
  end
with parseClass (name : string) (scope : json) (indentLevel : Z) {struct scope} : string :=
  match scope with
  | JObject members =>
      classText (crystalTypeWith (fun arr => unionOf (map parseScope arr)))
                parseScope parseClass name members indentLevel
  | _ =>
      (* only objects reach [parseClass]: a class without keys otherwise *)
      classText (crystalTypeWith (fun arr => unionOf (map parseScope arr)))
                parseScope parseClass name [] indentLevel
  end.

Definition arrayType (arr : list json) : string := unionOf (map parseScope arr).

Definition crystalType (val : json) : string := crystalTypeWith arrayType val.

(** [parse]: [JSON.parse] is a parameter; [None] stands for the
    [SyntaxError] it throws on text that is not JSON. *)
Variable JSON_parse : string -> option json.

Definition parse (scope : string) : outcome :=
  match JSON_parse (replaceDotZero scope) with
  | Some data => Returns (parseScope data)
  | None => Throws SyntaxError
  end.

End JsonToCrystal.

End TS.

(** ** The JavaScript implementation *)

Module JS.
Import JsString Lodash Common.

(** *** [Util] *)

Definition crystalType (val : json) : string :=
  match val with
  | JNull => "JSON::Any"
  | JString _ => "String"
  | JNumber n => numberType n
  | JBool _ => "Bool"
  | JArray _ => "array"
  | JObject _ => "class"
  end.

Definition formatKey (str : option string) : string := format str.

(** *** Options ([_defaultOptions]); [noop] answers [undefined], which is
    falsy. *)
Record options := {
  baseClassName : string;
  baseIndent : Z;
  ignoreKeys : string -> bool;
  transformKeys : string -> string;
  allNilable : bool;
  nilable : string -> string -> bool;
  compact : bool
}.

Definition defaultOptions : options := {|
  baseClassName := "AutoGenerated";
  baseIndent := 0;
  ignoreKeys := fun _ => false;
  transformKeys := fun k => formatKey (Some k);
  allNilable := false;
  nilable := fun _ _ => false;
  compact := false
|}.

(** [{ baseIndent: n }] completed by [_.defaultsDeep]. *)
Definition withBaseIndent (n : Z) : options := {|
  baseClassName := baseClassName defaultOptions;
  baseIndent := n;
  ignoreKeys := ignoreKeys defaultOptions;
  transformKeys := transformKeys defaultOptions;
  allNilable := allNilable defaultOptions;
  nilable := nilable defaultOptions;
  compact := compact defaultOptions
|}.

Definition keysOf (properties : json) : list (string * json) :=
  match properties with
  | JObject members => members
  | _ => []
  end.

(** *** [CrystalNamedTuple.toString]: each pair is [key: type], the pairs
    are separated by [", "]. *)
Definition namedTupleToString (transform : string -> string) (properties : json) : string :=
  let pairs := map (fun '(k, v) => (transform k, crystalType v)) (keysOf properties) in
  let props := join ", " (map (fun '(k, t) => k ++ ": " ++ t) pairs) in
  "NamedTuple(" ++ props ++ ")".

(** *** [CrystalArray.toString] *)
Fixpoint arrayToString (transform : string -> string) (rawArr : json) : string :=
  match rawArr with
  | JArray arr =>
      unionOf
        (map (fun item =>
                let v := crystalType item in
                if v =? "class" then namedTupleToString transform item
                else if v =? "array" then arrayToString transform item
                else v)
             arr)
  | _ => unionOf []
  end.

(** The function mapped over [rawArr]. *)
Definition itemType (transform : string -> string) (item : json) : string :=
  let v := crystalType item in
  if v =? "class" then namedTupleToString transform item
  else if v =? "array" then arrayToString transform item
  else v.

(** *** [CrystalClass] *)

Definition _indent (s : string) (level : Z) : string :=
  if (level <=? 0)%Z then s else repeat "  " (Z.to_nat level) ++ s.

Definition _formatClassName (name : string) : string := upperFirst (camelCase name).

(** What [_spacing] pushes. *)
Definition _spacing (opts : options) : list string :=
  if compact opts then [] else [EmptyString].

Fixpoint mapi {A B : Type} (f : A -> nat -> B) (i : nat) (l : list A) : list B :=
  match l with
  | [] => []
  | x :: t => f x i :: mapi f (S i) t
  end.

(** The type written for the member [x]: the name of the subclass, the
    array type, or the scalar type. *)
Definition memberType (opts : options) (x : string) (val : json) : string :=
  let type := crystalType val in
  if type =? "class" then _formatClassName (transformKeys opts x)
  else if type =? "array" then arrayToString (transformKeys opts) val
  else type.

(** One element of [items]. *)
Definition item (opts : options) (keysLength : nat) (indentLevel : Z)
           (member : string * json) (i : nat) : string :=
  let '(x, val) := member in
  let key := transformKeys opts x in
  _indent
    (key ++ ": { "
     ++ (if negb (key =? x) then "key: " ++ quote ++ x ++ quote ++ ", " else EmptyString)
     ++ (if allNilable opts || nilable opts x key then "nilable: true, " else EmptyString)
     ++ "type: " ++ memberType opts x val ++ " }"
     ++ (if (i <? keysLength - 1)%nat then "," else EmptyString))
    indentLevel.

(** [Array.prototype.join] writes [undefined] as the empty string. *)
Definition orEmpty (s : option string) : string :=
  match s with
  | Some text => text
  | None => EmptyString
  end.

(** [parse] on the members; the recursive [sub.toString()] is an
    argument.  Without keys the method returns nothing. *)
Definition classLines (toString : options -> string -> json -> option string)
           (opts : options) (name : string) (members : list (string * json))
  : option string :=
  let indentLevel := baseIndent opts in
  match members with
  | [] => None
  | _ =>
      let kept := filter (fun '(x, _) => negb (ignoreKeys opts x)) members in
      let items := mapi (item opts (List.length members) (indentLevel + 2)) 0 kept in
      let subclasses :=
        flat_map (fun '(x, val) =>
                    if negb (ignoreKeys opts x) && (crystalType val =? "class")
                    then [toString (withBaseIndent (indentLevel + 2 - 1))
                                   (transformKeys opts x) val]
                    else [])
                 members in
      Some (join LF
              ([_indent ("class " ++ name) indentLevel]
               ++ _spacing opts
               ++ [_indent "JSON.mapping({" (indentLevel + 1)]
               ++ items
               ++ [_indent "})" (indentLevel + 1)]
               ++ _spacing opts
               ++ map orEmpty subclasses
               ++ [_indent "end" indentLevel]
               ++ _spacing opts)%list)
  end.

(** [new CrystalClass(properties, name, options).toString()]. *)
Fixpoint classToString (opts : options) (name : string) (properties : json)
         {struct properties} : option string :=
  match properties with
  | JObject members => classLines classToString opts (_formatClassName name) members
  | _ => classLines classToString opts (_formatClassName name) []
  end.

(** *** [JsonToCrystal.parse] *)

Definition typeof (val : json) : string :=
  match val with
  | JNull => "object"
  | JBool _ => "boolean"
  | JNumber _ => "number"
  | JString _ => "string"
  | JArray _ => "object"
  | JObject _ => "object"
  end.

Section Parse.

Variable opts : options.
Variable JSON_parse : string -> option json.

(** [parse] calls itself on the value read from a string; [fuel] bounds
    the number of such calls, and [None] says it ran out. *)
Fixpoint parse (fuel : nat) (scope : json) : option outcome :=
  match scope with
  | JString text =>
      match JSON_parse (replaceDotZero text) with
      | Some data =>
          match fuel with
          | S fuel' => parse fuel' data
          | O => None
          end
      | None => Some (Throws SyntaxError)
      end
  | JArray _ =>
      Some (Returns ("alias AutoGenerated = " ++ arrayToString (fun k => formatKey (Some k)) scope))
  | JObject _ =>
      Some (match classToString opts (baseClassName opts) scope with
            | Some text => Returns text
            | None => ReturnsUndefined
            end)
  | _ => Some (Throws (UnsupportedDataType (typeof scope)))
  end.

End Parse.

End JS.

(** ** Vocabulary of the specification *)

Module Spec.
Import JsString Lodash Common.

(** A text given line by line. *)
Definition lines (ls : list string) : string := join LF ls.

(** Duplicates removed, the first occurrence of each value kept. *)
Fixpoint firstOccurrences (l : list string) : list string :=
  match l with
  | [] => []
  | x :: t => x :: filter (fun y => negb (y =? x)) (firstOccurrences t)
  end.

(** A union type: its members separated by [" | "]. *)
Definition arrayOf (members : list string) : string :=
  "Array(" ++ join " | " members ++ ")".

(** The members of the union written for an array whose elements have
    the types [types]. *)
Definition unionMembers (types : list string) : list string :=
  match types with
  | [] => ["JSON::Any"]
  | _ => firstOccurrences types
  end.

(** The character at index [i] once every [".0"] has become [".1"]: a
    ["0"] that follows a ["."] is a ["1"], any other character is kept. *)
Definition rewrittenAt (text : string) (i : nat) : option ascii :=
  match String.get i text with
  | Some c =>
      let afterDot := match i with
                      | O => false
                      | S j => match String.get j text with
                               | Some d => Ascii.eqb d "."
                               | None => false
                               end
                      end in
      Some (if Ascii.eqb c "0" && afterDot then "1"%char else c)
  | None => None
  end.

(** A [JSON.parse] that only knows a few texts, for examples. *)
Definition parseLiteral (text : string) : option json :=
  if text =? "null" then Some JNull
  else if text =? "true" then Some (JBool true)
  else if text =? "false" then Some (JBool false)
  else if text =? "[]" then Some (JArray [])
  else if text =? "{}" then Some (JObject [])
  else None.

(** The field entry of [key] in a class of [src/json-to-crystal.ts] opens
    with the formatted key followed by the annotation [key: "<key>"]. *)
Definition carriesKeyAnnotation (entry : string) (indentLevel : Z) (key : string) : Prop :=
  exists rest,
    entry = TS.indent indentLevel ++ format (Some key) ++ ": { "
            ++ "key: " ++ quote ++ key ++ quote ++ ", " ++ rest.

(** snake_case: words of lower-case letters and digits, separated by
    single underscores. *)
Definition wordChar (c : ascii) : bool := isLower c || isDigit c.

Fixpoint snakeTail (s : list ascii) : bool :=
  match s with
  | [] => true
  | c :: t =>
      if Ascii.eqb c "_"
      then match t with
           | d :: _ => wordChar d && snakeTail t
           | [] => false
           end
      else wordChar c && snakeTail t
  end.

Definition isSnakeCase (s : string) : bool :=
  match chars s with
  | [] => false
  | c :: t => wordChar c && snakeTail t
  end.

Definition startsWithDigit (s : string) : bool := firstIs isDigit s.

End Spec.

(** * Properties *)

Import Spec.

Import JsString Lodash Common.

(** ** Strings *)

Lemma append_assoc (a b c : string) : (a ++ b) ++ c = a ++ b ++ c.
Proof.
  induction a as [| x a IH]; simpl; [reflexivity | now rewrite IH].
Qed.

Lemma append_inv_head (a b c : string) : a ++ b = a ++ c -> b = c.
Proof.
  induction a as [| x a IH]; simpl; intros H; [assumption |].
  injection H as H. auto.
Qed.

Lemma string_pairs_ind (P : string -> Prop) :
  P EmptyString ->
  (forall c, P (String c EmptyString)) ->
  (forall c d t, P t -> P (String d t) -> P (String c (String d t))) ->
  forall s, P s.
Proof.
  intros H0 H1 H2 s.
  enough (P s /\ forall c, P (String c s)) by tauto.
  induction s as [| d t [IHt IHc]]; split; auto.
Qed.

(** ** The examples of lodash's documentation *)

Example snakeCase_doc :
  snakeCase "Foo Bar" = "foo_bar" /\ snakeCase "fooBar" = "foo_bar"
  /\ snakeCase "--FOO-BAR--" = "foo_bar".
Proof. repeat split; reflexivity. Qed.

Example camelCase_doc :
  camelCase "Foo Bar" = "fooBar" /\ camelCase "--foo-bar--" = "fooBar"
  /\ camelCase "__FOO_BAR__" = "fooBar".
Proof. repeat split; reflexivity. Qed.

Example upperFirst_doc : upperFirst "fred" = "Fred" /\ upperFirst "FRED" = "FRED".
Proof. split; reflexivity. Qed.

Example uniq_doc : uniq ["2"; "1"; "2"] = ["2"; "1"].
Proof. reflexivity. Qed.

(** ** The methods of [src/json-to-crystal.ts], as written there *)

Section TsEquations.

Variable baseClass : string.
Variable allNilable : bool.

Let parseScope := TS.parseScope baseClass allNilable.
Let parseClass := TS.parseClass baseClass allNilable.
Let crystalType := TS.crystalType baseClass allNilable.
Let arrayType := TS.arrayType baseClass allNilable.

Lemma parseScope_array (arr : list json) : parseScope (JArray arr) = arrayType arr.
Proof. reflexivity. Qed.

Lemma parseScope_object (members : list (string * json)) :
  parseScope (JObject members) = parseClass baseClass (JObject members) 0.
Proof. reflexivity. Qed.

Lemma parseScope_scalar (scope : json) :
  match scope with
  | JArray _ | JObject _ => True
  | _ => parseScope scope = crystalType scope
  end.
Proof. destruct scope; try exact I; reflexivity. Qed.

Lemma crystalType_array (arr : list json) : crystalType (JArray arr) = arrayType arr.
Proof. reflexivity. Qed.

Lemma arrayType_eq (arr : list json) : arrayType arr = unionOf (map parseScope arr).
Proof. reflexivity. Qed.

Lemma parseClass_eq (name : string) (members : list (string * json)) (indentLevel : Z) :
  parseClass name (JObject members) indentLevel
  = TS.classText allNilable crystalType parseScope parseClass name members indentLevel.
Proof. reflexivity. Qed.

End TsEquations.

(** ** Scalar types *)

Lemma mod1_integer (z : Z) :
  JsNumber.strictEq (JsNumber.mod1 (JsNumber.ofZ z)) (JsNumber.ofZ 0) = true.
Proof.
  unfold JsNumber.ofZ, JsNumber.mod1, JsNumber.strictEq, inject_Z, Qeq_bool; simpl.
  rewrite Z.rem_1_r. reflexivity.
Qed.

(** What [crystalType] answers for a whole number: the two comparisons are
    strict. *)
Lemma numberType_integer (z : Z) :
  numberType (JsNumber.ofZ z)
  = if ((-2147483648 <? z) && (z <? 2147483647))%Z then "Int32" else "Int64".
Proof.
  unfold numberType. rewrite mod1_integer.
  unfold JsNumber.gt, JsNumber.lt, JsNumber.ofZ, inject_Z, Qle_bool.
  cbn [Qnum Qden].
  rewrite !Z.mul_1_r, <- !Z.ltb_antisym. reflexivity.
Qed.

Lemma numberType_fraction (q : Q) :
  Z.rem (Qnum q) (Zpos (Qden q)) <> 0%Z -> numberType (Finite q) = "Float64".
Proof.
  intros H. unfold numberType, JsNumber.mod1, JsNumber.strictEq, JsNumber.ofZ, inject_Z, Qeq_bool.
  cbn [Qnum Qden].
  rewrite Z.mul_1_r.
  destruct (Z.eqb_spec (Z.rem (Qnum q) (Zpos (Qden q))) (0 * Zpos (Qden q))) as [E | E].
  - rewrite Z.mul_0_l in E. contradiction.
  - reflexivity.
Qed.

(** C1 (the code departs from the claim).  [crystalType] compares with
    [>] and [<], so the two ends of the 32-bit range, 2147483647 and
    -2147483648, are typed [Int64] by both implementations, where the claim
    has them typed [Int32]. *)
Theorem C1_int32_bounds_typed_Int64 (baseClass : string) (allNilable : bool) :
  TS.crystalType baseClass allNilable (int 2147483647) = "Int64"
  /\ TS.crystalType baseClass allNilable (int (-2147483648)) = "Int64"
  /\ JS.crystalType (int 2147483647) = "Int64"
  /\ JS.crystalType (int (-2147483648)) = "Int64".
Proof.
  repeat split; reflexivity.
Qed.

(** ** Arrays *)

(** C8.  The empty array is typed [Array(JSON::Any)] by [arrayType] (hence
    by [parseScope] and [crystalType]) and by [CrystalArray.toString]. *)
Theorem C8_empty_array_is_array_of_any
        (baseClass : string) (allNilable : bool) (transform : string -> string) :
  TS.arrayType baseClass allNilable [] = "Array(JSON::Any)"
  /\ TS.parseScope baseClass allNilable (JArray []) = "Array(JSON::Any)"
  /\ TS.crystalType baseClass allNilable (JArray []) = "Array(JSON::Any)"
  /\ JS.arrayToString transform (JArray []) = "Array(JSON::Any)".
Proof.
  repeat split; reflexivity.
Qed.

(** C5 (the code departs from the claim).  In [src/json-to-crystal.ts] an
    object inside an array goes through [parseScope] to [parseClass], so the
    text of a class named after [baseClass] is written inside [Array(...)]. *)
Theorem C5_ts_array_of_object_writes_a_class :
  TS.arrayType "AutoGenerated" false [JObject [("a", int 1)]]
  = "Array("
    ++ lines [ "class AutoGenerated";
               "";
               "  JSON.mapping({";
               "    a: { type: Int32 },";
               "  })";
               "";
               "end";
               "" ]
    ++ ")".
Proof.
  vm_compute. reflexivity.
Qed.

(** So it is for every object that is the only element of an array. *)
Lemma ts_array_of_object_is_class_text
      (baseClass : string) (allNilable : bool) (members : list (string * json)) :
  TS.arrayType baseClass allNilable [JObject members]
  = "Array(" ++ TS.parseClass baseClass allNilable baseClass (JObject members) 0 ++ ")".
Proof.
  reflexivity.
Qed.

(** The JavaScript implementation writes a [NamedTuple] for every object in
    an array. *)
Lemma js_array_of_object_is_named_tuple (transform : string -> string)
      (members : list (string * json)) :
  JS.arrayToString transform (JArray [JObject members])
  = arrayOf [JS.namedTupleToString transform (JObject members)].
Proof.
  reflexivity.
Qed.

Example js_array_of_object :
  JS.arrayToString (fun k => JS.formatKey (Some k)) (JArray [JObject [("a", int 1)]])
  = "Array(NamedTuple(a: Int32))".
Proof.
  vm_compute. reflexivity.
Qed.

(** ** Classes *)

(** C2 (the code departs from the claim).  For [{"user": {"id": 1}}],
    [parseClass] writes the original key [user] as the type of the field and
    names the class of the nested object [User]: the reference and the
    declaration differ. *)
Theorem C2_ts_type_reference_is_the_raw_key :
  TS.parseScope "AutoGenerated" false (JObject [("user", JObject [("id", int 1)])])
  = lines [ "class AutoGenerated";
            "";
            "  JSON.mapping({";
            "    user: { type: user },";
            "  })";
            "";
            "  class User";
            "";
            "    JSON.mapping({";
            "      id: { type: Int32 },";
            "    })";
            "";
            "  end";
            "end";
            "" ].
Proof.
  vm_compute. reflexivity.
Qed.

(** In general: the entry of a nested object ends with the key as it is,
    and the class of a key that starts with a lower-case letter is named by
    [upperFirst(camelCase(key))], which starts differently. *)
Lemma ts_nested_object_entry
      (baseClass : string) (allNilable : bool) (indentLevel : Z)
      (key : string) (members : list (string * json)) :
  exists before,
    TS.fieldEntry allNilable (TS.crystalType baseClass allNilable)
                  (TS.parseScope baseClass allNilable) indentLevel key (JObject members)
    = before ++ "type: " ++ key ++ " }," ++ LF.
Proof.
  unfold TS.fieldEntry.
  replace (TS.crystalType baseClass allNilable (JObject members) =? "class")
    with true by reflexivity.
  exists (TS.indent indentLevel ++ format (Some key) ++ ": { "
          ++ (if negb (key =? format (Some key))
              then "key: " ++ quote ++ key ++ quote ++ ", "
              else EmptyString)
          ++ (if allNilable then "nilable: true, " else EmptyString)).
  now rewrite !append_assoc.
Qed.

Lemma ts_nested_class_name
      (baseClass : string) (allNilable : bool) (indentLevel : Z)
      (c : ascii) (key : string) (members : list (string * json)) :
  isLower c = true ->
  exists rest,
    TS.parseClass baseClass allNilable (String c key) (JObject members) indentLevel
    = TS.indent indentLevel ++ "class " ++ upperFirst (camelCase (String c key)) ++ rest.
Proof.
  intros L. cbn [TS.parseClass]. unfold TS.classText, firstIs.
  cbn [charAt0]. rewrite L. eexists. reflexivity.
Qed.

(** [CrystalClass.parse] writes the name of the subclass ([klass.name]). *)
Example js_type_reference_is_the_class_name :
  JS.classToString JS.defaultOptions "AutoGenerated"
                   (JObject [("user", JObject [("id", int 1)])])
  = Some (lines [ "class AutoGenerated";
                  "";
                  "  JSON.mapping({";
                  "    user: { type: User }";
                  "  })";
                  "";
                  "  class User";
                  "";
                  "    JSON.mapping({";
                  "      id: { type: Int32 }";
                  "    })";
                  "";
                  "  end";
                  "";
                  "end";
                  "" ]).
Proof.
  vm_compute. reflexivity.
Qed.

(** ** Keys *)

(** C10.  [format] sends the distinct keys [aB] and [a_b] to the same name,
    and a class with both keys gets two entries named [a_b], in either
    implementation. *)
Theorem C10_format_not_injective :
  "aB" <> "a_b"
  /\ format (Some "aB") = "a_b"
  /\ format (Some "a_b") = "a_b"
  /\ TS.parseScope "AutoGenerated" false (JObject [("aB", int 1); ("a_b", int 2)])
     = lines [ "class AutoGenerated";
               "";
               "  JSON.mapping({";
               "    a_b: { key: " ++ quote ++ "aB" ++ quote ++ ", type: Int32 },";
               "    a_b: { type: Int32 },";
               "  })";
               "";
               "end";
               "" ]
  /\ JS.classToString JS.defaultOptions "AutoGenerated"
                      (JObject [("aB", int 1); ("a_b", int 2)])
     = Some (lines [ "class AutoGenerated";
                     "";
                     "  JSON.mapping({";
                     "    a_b: { key: " ++ quote ++ "aB" ++ quote ++ ", type: Int32 },";
                     "    a_b: { type: Int32 }";
                     "  })";
                     "";
                     "end";
                     "" ]).
Proof.
  split; [discriminate |].
  repeat split; vm_compute; reflexivity.
Qed.

(** ** [_.uniq] *)

Lemma firstOccurrences_In (l : list string) (x : string) :
  In x (firstOccurrences l) <-> In x l.
Proof.
  induction l as [| y t IH]; simpl; [tauto |].
  rewrite filter_In, IH.
  destruct (String.eqb_spec x y) as [E | E]; simpl; intuition congruence.
Qed.

Lemma firstOccurrences_NoDup (l : list string) : NoDup (firstOccurrences l).
Proof.
  induction l as [| y t IH]; simpl; constructor.
  - rewrite filter_In, String.eqb_refl. simpl. intros [_ H]. discriminate.
  - apply NoDup_filter, IH.
Qed.

Lemma filter_absent (p : string -> bool) (l : list string) :
  (forall y, In y l -> p y = true) -> filter p l = l.
Proof.
  induction l as [| y t IH]; simpl; intros H; [reflexivity |].
  rewrite (H y) by auto. f_equal. apply IH. auto.
Qed.

Lemma filter_comm (p q : string -> bool) (l : list string) :
  filter p (filter q l) = filter q (filter p l).
Proof.
  induction l as [| y t IH]; simpl; [reflexivity |].
  destruct (p y) eqn:Ep, (q y) eqn:Eq; simpl; rewrite ?Ep, ?Eq, IH; reflexivity.
Qed.

Lemma filter_andb (p q : string -> bool) (l : list string) :
  filter p (filter q l) = filter (fun y => q y && p y) l.
Proof.
  induction l as [| y t IH]; simpl; [reflexivity |].
  destruct (q y) eqn:Eq; simpl; [destruct (p y) |]; rewrite IH; reflexivity.
Qed.

Lemma firstOccurrences_filter (p : string -> bool) (l : list string) :
  filter p (firstOccurrences l) = firstOccurrences (filter p l).
Proof.
  induction l as [| x t IH]; simpl; [reflexivity |].
  destruct (p x) eqn:Ep; simpl.
  - rewrite filter_comm, IH. reflexivity.
  - rewrite filter_comm, IH. apply filter_absent.
    intros y Hy. apply firstOccurrences_In, filter_In in Hy.
    destruct (String.eqb_spec y x) as [-> | _]; [| reflexivity].
    destruct Hy as [_ Hy]. congruence.
Qed.

Lemma baseUniq_firstOccurrences (array result : list string) :
  baseUniq array result
  = (result
     ++ firstOccurrences (filter (fun x => negb (existsb (String.eqb x) result)) array))%list.
Proof.
  revert result. induction array as [| x t IH]; intros result; simpl.
  - now rewrite app_nil_r.
  - destruct (existsb (String.eqb x) result) eqn:Ex; simpl.
    + apply IH.
    + rewrite IH, <- app_assoc. simpl. do 2 f_equal.
      rewrite firstOccurrences_filter, filter_andb. f_equal.
      apply filter_ext. intros y.
      rewrite existsb_app. simpl. now rewrite orb_false_r, negb_orb.
Qed.

(** [_.uniq] keeps the first occurrence of each value. *)
Lemma uniq_firstOccurrences (l : list string) : uniq l = firstOccurrences l.
Proof.
  unfold uniq. rewrite baseUniq_firstOccurrences. simpl.
  f_equal. apply filter_absent. reflexivity.
Qed.

Lemma unionOf_members (types : list string) :
  unionOf types = arrayOf (unionMembers types).
Proof.
  unfold unionOf, arrayOf, unionMembers.
  rewrite uniq_firstOccurrences.
  destruct types; reflexivity.
Qed.

(** C3.  The type of an array is [Array(...)] around the types of its
    elements, taken in order, each distinct type written once at its first
    occurrence: the members are pairwise distinct and are exactly the types
    that occur.  [[null, null]] gives [Array(JSON::Any)]. *)
Theorem C3_union_keeps_first_occurrences
        (baseClass : string) (allNilable : bool) (transform : string -> string)
        (arr : list json) :
  TS.arrayType baseClass allNilable arr
  = arrayOf (unionMembers (map (TS.parseScope baseClass allNilable) arr))
  /\ JS.arrayToString transform (JArray arr)
     = arrayOf (unionMembers (map (JS.itemType transform) arr))
  /\ (forall types, NoDup (unionMembers types))
  /\ (forall types t, In t (firstOccurrences types) <-> In t types)
  /\ TS.arrayType baseClass allNilable [JNull; JNull] = "Array(JSON::Any)"
  /\ JS.arrayToString transform (JArray [JNull; JNull]) = "Array(JSON::Any)".
Proof.
  split; [apply unionOf_members |].
  split; [apply (unionOf_members (map (JS.itemType transform) arr)) |].
  split.
  { intros [| t ts]; [repeat constructor; simpl; tauto |].
    apply (firstOccurrences_NoDup (t :: ts)). }
  split; [intros; apply firstOccurrences_In |].
  split; reflexivity.
Qed.

(** ** Reading raw text *)

Lemma replaceDotZero_pair (c d : ascii) (t : string) :
  replaceDotZero (String c (String d t))
  = if (Ascii.eqb c "." && Ascii.eqb d "0")%bool
    then String "." (String "1" (replaceDotZero t))
    else String c (replaceDotZero (String d t)).
Proof.
  reflexivity.
Qed.

Lemma replaceDotZero_length (text : string) :
  String.length (replaceDotZero text) = String.length text.
Proof.
  induction text as [| c | c d t IHt IHd] using string_pairs_ind; try reflexivity.
  rewrite replaceDotZero_pair.
  destruct (Ascii.eqb c "." && Ascii.eqb d "0")%bool; cbn [String.length].
  - now rewrite IHt.
  - now rewrite IHd.
Qed.

Lemma replaceDotZero_head (c : ascii) (t : string) :
  String.get 0 (replaceDotZero (String c t)) = Some c.
Proof.
  destruct t as [| d t]; [reflexivity |].
  rewrite replaceDotZero_pair.
  destruct (Ascii.eqb_spec c "."); simpl; [| reflexivity].
  destruct (Ascii.eqb d "0"); subst; reflexivity.
Qed.

Lemma replaceDotZero_get (text : string) (i : nat) :
  String.get i (replaceDotZero text) = rewrittenAt text i.
Proof.
  revert i.
  induction text as [| c | c d t IHt IHd] using string_pairs_ind; intros i.
  - destruct i; reflexivity.
  - destruct i as [| [| i]]; try reflexivity.
    unfold rewrittenAt. simpl. now destruct (Ascii.eqb c "0").
  - destruct i as [| i].
    + rewrite replaceDotZero_head. unfold rewrittenAt. simpl.
      now rewrite andb_false_r.
    + destruct i as [| i].
      * rewrite replaceDotZero_pair. unfold rewrittenAt. cbn [String.get].
        rewrite (andb_comm (Ascii.eqb c ".")).
        destruct (Ascii.eqb d "0" && Ascii.eqb c ".")%bool eqn:E; [reflexivity |].
        cbn [String.get]. apply replaceDotZero_head.
      * rewrite replaceDotZero_pair.
        destruct (Ascii.eqb c "." && Ascii.eqb d "0")%bool eqn:E.
        -- cbn [String.get]. rewrite IHt.
           apply andb_true_iff in E as [_ Ed].
           apply Ascii.eqb_eq in Ed. subst d.
           unfold rewrittenAt. cbn [String.get].
           destruct (String.get i t) as [e |]; [| reflexivity].
           destruct i; reflexivity.
        -- cbn [String.get]. rewrite IHd.
           unfold rewrittenAt. cbn [String.get]. reflexivity.
Qed.

Lemma js_parse_never_JsonParseError
      (opts : JS.options) (JSON_parse : string -> option json) (fuel : nat) (scope : json) :
  JS.parse opts JSON_parse fuel scope <> Some (Throws JsonParseError).
Proof.
  revert scope. induction fuel as [| fuel IH]; intros scope;
    destruct scope; simpl; try discriminate;
    try (destruct (JSON_parse _); [try apply IH |]; discriminate);
    match goal with
    | |- context [match ?x with _ => _ end] => destruct x; discriminate
    end.
Qed.

Lemma ts_parse_never_JsonParseError
      (baseClass : string) (allNilable : bool) (JSON_parse : string -> option json)
      (text : string) :
  TS.parse baseClass allNilable JSON_parse text <> Throws JsonParseError.
Proof.
  unfold TS.parse. destruct (JSON_parse _); discriminate.
Qed.

(** C4 (the code departs from the claim).  When [JSON.parse] rejects the
    rewritten text, [parse] lets its [SyntaxError] through: the error is not
    the [JsonParseError] that the code declares, which is thrown nowhere. *)
Theorem C4_rejected_text_throws_SyntaxError
        (baseClass : string) (allNilable : bool) (opts : JS.options)
        (JSON_parse : string -> option json) (fuel : nat) (text : string) :
  JSON_parse (replaceDotZero text) = None ->
  TS.parse baseClass allNilable JSON_parse text = Throws SyntaxError
  /\ JS.parse opts JSON_parse fuel (JString text) = Some (Throws SyntaxError).
Proof.
  intros H. unfold TS.parse. destruct fuel; simpl; rewrite H; split; reflexivity.
Qed.

Lemma C4_rejected_text_witness :
  TS.parse "AutoGenerated" false parseLiteral "{" = Throws SyntaxError
  /\ JS.parse JS.defaultOptions parseLiteral 1 (JString "{") = Some (Throws SyntaxError).
Proof.
  apply (C4_rejected_text_throws_SyntaxError
           "AutoGenerated" false JS.defaultOptions parseLiteral 1 "{").
  reflexivity.
Defined.

(** C6.  [parse] hands [JSON.parse] the text in which every ["0"] that
    follows a ["."] has become ["1"], all other characters kept, and works
    on the value read from it; an array or an object given to
    [JsonToCrystal.parse], or any value given to [parseScope], is used as it
    is, whatever [JSON.parse] would do. *)
Theorem C6_text_is_rewritten_then_parsed
        (baseClass : string) (allNilable : bool) (opts : JS.options)
        (JSON_parse : string -> option json) (fuel : nat) (text : string) :
  TS.parse baseClass allNilable JSON_parse text
  = match JSON_parse (replaceDotZero text) with
    | Some data => Returns (TS.parseScope baseClass allNilable data)
    | None => Throws SyntaxError
    end
  /\ JS.parse opts JSON_parse (S fuel) (JString text)
     = match JSON_parse (replaceDotZero text) with
       | Some data => JS.parse opts JSON_parse fuel data
       | None => Some (Throws SyntaxError)
       end
  /\ String.length (replaceDotZero text) = String.length text
  /\ (forall i, String.get i (replaceDotZero text) = rewrittenAt text i)
  /\ replaceDotZero "{ x1.0y: 2.0, z: 10.05 }" = "{ x1.1y: 2.1, z: 10.15 }"
  /\ (forall arr,
        JS.parse opts JSON_parse fuel (JArray arr)
        = Some (Returns ("alias AutoGenerated = "
                         ++ JS.arrayToString (fun k => JS.formatKey (Some k)) (JArray arr))))
  /\ (forall members,
        JS.parse opts JSON_parse fuel (JObject members)
        = Some (match JS.classToString opts (JS.baseClassName opts) (JObject members) with
                | Some out => Returns out
                | None => ReturnsUndefined
                end))
  /\ TS.parseScope "AutoGenerated" false (JObject [("v1.0", JNull)])
     = lines [ "class AutoGenerated";
               "";
               "  JSON.mapping({";
               "    v_1_0: { key: " ++ quote ++ "v1.0" ++ quote ++ ", type: JSON::Any },";
               "  })";
               "";
               "end";
               "" ].
Proof.
  split; [reflexivity |].
  split; [reflexivity |].
  split; [apply replaceDotZero_length |].
  split; [apply replaceDotZero_get |].
  split; [reflexivity |].
  split; [intros; destruct fuel; reflexivity |].
  split; [intros; destruct fuel; reflexivity |].
  vm_compute. reflexivity.
Qed.

(** ** Field entries *)

Lemma fieldEntry_renamed
      (allNilable : bool) (crystalType parseScope : json -> string)
      (indentLevel : Z) (key : string) (val : json) :
  key <> format (Some key) ->
  TS.fieldEntry allNilable crystalType parseScope indentLevel key val
  = TS.indent indentLevel ++ format (Some key) ++ ": { "
    ++ "key: " ++ quote ++ key ++ quote ++ ", "
    ++ (if allNilable then "nilable: true, " else EmptyString)
    ++ (if crystalType val =? "class"
        then "type: " ++ key ++ " }," ++ LF
        else "type: " ++ parseScope val ++ " }," ++ LF).
Proof.
  intros H. unfold TS.fieldEntry.
  destruct (String.eqb_spec key (format (Some key))) as [E | _]; [contradiction |].
  cbn [negb]. now rewrite !append_assoc.
Qed.

Lemma fieldEntry_unchanged
      (allNilable : bool) (crystalType parseScope : json -> string)
      (indentLevel : Z) (key : string) (val : json) :
  key = format (Some key) ->
  TS.fieldEntry allNilable crystalType parseScope indentLevel key val
  = TS.indent indentLevel ++ format (Some key) ++ ": { "
    ++ (if allNilable then "nilable: true, " else EmptyString)
    ++ (if crystalType val =? "class"
        then "type: " ++ key ++ " }," ++ LF
        else "type: " ++ parseScope val ++ " }," ++ LF).
Proof.
  intros H. unfold TS.fieldEntry.
  destruct (String.eqb_spec key (format (Some key))) as [_ | E]; [| contradiction].
  reflexivity.
Qed.

(** C7.  The entry written by [parseClass] for a key carries
    [key: "<key>"] exactly when [format] changes the key.  For
    [{"1abc": true}] the formatted key is [one_abc] and the entry names the
    original key. *)
Theorem C7_key_annotation_iff_renamed
        (allNilable : bool) (crystalType parseScope : json -> string)
        (indentLevel : Z) (key : string) (val : json) :
  (carriesKeyAnnotation
     (TS.fieldEntry allNilable crystalType parseScope indentLevel key val)
     indentLevel key
   <-> format (Some key) <> key)
  /\ format (Some "1abc") = "one_abc"
  /\ TS.parseScope "AutoGenerated" false (JObject [("1abc", JBool true)])
     = lines [ "class AutoGenerated";
               "";
               "  JSON.mapping({";
               "    one_abc: { key: " ++ quote ++ "1abc" ++ quote ++ ", type: Bool },";
               "  })";
               "";
               "end";
               "" ].
Proof.
  split; [| split; vm_compute; reflexivity].
  split.
  - intros [rest H] E. symmetry in E.
    rewrite (fieldEntry_unchanged _ _ _ _ _ _ E) in H.
    do 3 apply append_inv_head in H.
    destruct allNilable, (crystalType val =? "class"); discriminate H.
  - intros E. eexists. apply fieldEntry_renamed. congruence.
Qed.

(** ** [_.snakeCase] on snake_case text *)

Local Open Scope list_scope.

(** The characters of snake_case text. *)
Definition snakeChar (c : ascii) : bool := wordChar c || Ascii.eqb c "_".

(** The words joined by ["_"], as a list of characters. *)
Fixpoint joinWords (ws : list (list ascii)) : list ascii :=
  match ws with
  | [] => []
  | [w] => w
  | w :: rest => w ++ "_"%char :: joinWords rest
  end.

(** What may follow a word in such a text. *)
Definition boundary (rest : list ascii) : Prop :=
  rest = [] \/ exists r, rest = "_"%char :: r.

(** The three kinds of words that [reUnicodeWord] finds in snake_case text. *)
Inductive shape : list ascii -> Prop :=
| shape_lower (c : ascii) (w : list ascii) :
    forallb isLower (c :: w) = true -> shape (c :: w)
| shape_digits (c : ascii) (w : list ascii) :
    forallb isDigit (c :: w) = true -> shape (c :: w)
| shape_ordinal (ds : list ascii) (d c1 c2 : ascii) :
    forallb isDigit ds = true -> ordinalSuffix false d c1 c2 = true ->
    shape (ds ++ [d; c1; c2]).

Ltac each_char c :=
  destruct c as [[] [] [] [] [] [] [] []]; vm_compute; try reflexivity; try discriminate.

Lemma lower_not_upper (c : ascii) : isLower c = true -> isUpper c = false.
Proof. each_char c. Qed.

Lemma lower_not_digit (c : ascii) : isLower c = true -> isDigit c = false.
Proof. each_char c. Qed.

Lemma digit_not_lower (c : ascii) : isDigit c = true -> isLower c = false.
Proof. each_char c. Qed.

Lemma digit_not_upper (c : ascii) : isDigit c = true -> isUpper c = false.
Proof. each_char c. Qed.

Lemma not_upper_lowerChar (c : ascii) : isUpper c = false -> lowerChar c = c.
Proof. unfold lowerChar. now intros ->. Qed.

Lemma snakeChar_cases (c : ascii) :
  snakeChar c = true -> isLower c = true \/ isDigit c = true \/ c = "_"%char.
Proof.
  unfold snakeChar, wordChar. rewrite !orb_true_iff, Ascii.eqb_eq. tauto.
Qed.

Lemma snakeChar_not_upper (c : ascii) : snakeChar c = true -> isUpper c = false.
Proof. each_char c. Qed.

Lemma snakeChar_not_apostrophe (c : ascii) :
  snakeChar c = true -> negb (Ascii.eqb c "'") = true.
Proof. each_char c. Qed.

Lemma wordChar_asciiWordChar (c : ascii) : wordChar c = true -> asciiWordChar c = true.
Proof. each_char c. Qed.

Lemma wordChar_snakeChar (c : ascii) : wordChar c = true -> snakeChar c = true.
Proof. unfold snakeChar. now intros ->. Qed.

(** *** Runs *)

Lemma run_app (p : ascii -> bool) (w rest : list ascii) :
  forallb p w = true -> run p (w ++ rest) = (List.length w + run p rest)%nat.
Proof.
  induction w as [| c w IH]; simpl; [reflexivity |].
  intros H. apply andb_true_iff in H as [-> H]. now rewrite IH.
Qed.

Lemma run_all (p : ascii -> bool) (w : list ascii) :
  forallb p w = true -> run p w = List.length w.
Proof.
  intros H. rewrite <- (app_nil_r w) at 1. rewrite run_app by assumption.
  simpl. lia.
Qed.

Lemma run_le (p : ascii -> bool) (s : list ascii) : (run p s <= List.length s)%nat.
Proof.
  induction s as [| c s IH]; simpl; [lia |]. destruct (p c); simpl; lia.
Qed.

Lemma firstn_run (p : ascii -> bool) (s : list ascii) (n : nat) :
  (n <= run p s)%nat -> forallb p (firstn n s) = true.
Proof.
  revert n. induction s as [| c s IH]; intros n; simpl.
  - intros H. now replace n with 0%nat by lia.
  - destruct n as [| n]; [reflexivity |]. simpl.
    destruct (p c); simpl; [| lia]. intros H. apply IH. lia.
Qed.

Lemma run_boundary (p : ascii -> bool) (rest : list ascii) :
  p "_"%char = false -> boundary rest -> run p rest = 0%nat.
Proof.
  intros Hp [-> | [r ->]]; simpl; [reflexivity | now rewrite Hp].
Qed.

(** *** Global matching *)

Lemma matchAll_skip (re : list ascii -> option nat) (w rest : list ascii) :
  matchAll re (List.length w) (w ++ rest) = matchAll re 0 rest.
Proof.
  induction w as [| c w IH]; simpl; [| exact IH].
  destruct rest; reflexivity.
Qed.

Lemma matchAll_word (re : list ascii -> option nat) (c : ascii) (w rest : list ascii) :
  re ((c :: w) ++ rest) = Some (List.length (c :: w)) ->
  matchAll re 0 ((c :: w) ++ rest) = (c :: w) :: matchAll re 0 rest.
Proof.
  intros H. cbn [app matchAll] in *. rewrite H. cbn [List.length].
  rewrite matchAll_skip. f_equal.
  change (c :: w ++ rest) with ((c :: w) ++ rest).
  change (S (List.length w)) with (List.length (c :: w)).
  rewrite firstn_app, Nat.sub_diag, firstn_all. simpl. now rewrite app_nil_r.
Qed.

Lemma matchAll_gap (re : list ascii -> option nat) (c : ascii) (t : list ascii) :
  re (c :: t) = None -> matchAll re 0 (c :: t) = matchAll re 0 t.
Proof.
  intros H. simpl. now rewrite H.
Qed.

Lemma matchAll_first (re : list ascii -> option nat) (c : ascii) (t : list ascii) (n : nat) :
  re (c :: t) = Some (S n) ->
  matchAll re 0 (c :: t) = (c :: firstn n t) :: matchAll re n t.
Proof.
  intros H. simpl. now rewrite H.
Qed.

(** *** [reUnicodeWord] by first character *)

Lemma reUnicodeWord_lower (c : ascii) (t : list ascii) :
  isLower c = true -> reUnicodeWord (c :: t) = Some (S (run isLower t)).
Proof.
  intros H. pose proof (lower_not_upper c H) as U.
  unfold reUnicodeWord. cbn [firstMatch].
  unfold optUpper. rewrite U.
  unfold lowerThenBoundary, upperThenBoundary, plus.
  cbn [run]. rewrite H, U.
  destruct (after _ _) as [x |]; [destruct (isBreak x || isUpper x) |]; reflexivity.
Qed.

Lemma reUnicodeWord_digit (c : ascii) (t : list ascii) :
  isDigit c = true ->
  reUnicodeWord (c :: t)
  = match ordinal true (c :: t) with
    | Some n => Some n
    | None => match ordinal false (c :: t) with
              | Some n => Some n
              | None => Some (S (run isDigit t))
              end
    end.
Proof.
  intros H.
  pose proof (digit_not_upper c H) as U. pose proof (digit_not_lower c H) as L.
  unfold reUnicodeWord. cbn [firstMatch].
  unfold optUpper. rewrite U.
  unfold lowerThenBoundary, upperThenBoundary, plus.
  cbn [run]. rewrite H, U, L. reflexivity.
Qed.

Lemma reUnicodeWord_underscore (t : list ascii) :
  reUnicodeWord ("_"%char :: t) = None.
Proof.
  reflexivity.
Qed.

(** *** Ordinals *)

Lemma ordinal_inv (upper : bool) (s : list ascii) (n : nat) :
  ordinal upper s = Some n ->
  exists m d c1 c2 rest,
    run isDigit s = S m /\ skipn m s = d :: c1 :: c2 :: rest
    /\ ordinalSuffix upper d c1 c2 = true
    /\ n = (S m + 2)%nat.
Proof.
  unfold ordinal. destruct (run isDigit s) as [| m] eqn:R; [discriminate |].
  destruct (skipn m s) as [| d [| c1 [| c2 rest]]] eqn:K; try discriminate.
  destruct (ordinalSuffix upper d c1 c2) eqn:E; [| discriminate].
  destruct (ordinalLookahead upper (hd_error rest)); [| discriminate].
  intros [= <-]. exists m, d, c1, c2, rest. repeat split; assumption.
Qed.

Lemma ordinal_eq (upper : bool) (s : list ascii) (m : nat) (d c1 c2 : ascii)
      (rest : list ascii) :
  run isDigit s = S m -> skipn m s = d :: c1 :: c2 :: rest ->
  ordinal upper s
  = if ordinalSuffix upper d c1 c2 && ordinalLookahead upper (hd_error rest)
    then Some (S m + 2)%nat
    else None.
Proof.
  intros R K. unfold ordinal. now rewrite R, K.
Qed.

Lemma ordinalSuffix_case (upper : bool) (d c1 c2 : ascii) :
  ordinalSuffix upper d c1 c2 = true ->
  isDigit d = true
  /\ (if upper then isUpper c1 else isLower c1) = true
  /\ (if upper then isUpper c2 else isLower c2) = true.
Proof.
  unfold ordinalSuffix.
  destruct upper;
    rewrite !orb_true_iff, !andb_true_iff, !Ascii.eqb_eq;
    intros [[[[-> [-> ->]] | [-> [-> ->]]] | [-> [-> ->]]] | [[D _] [-> ->]]];
    repeat split; try reflexivity; assumption.
Qed.

Lemma forallb_skipn (p : ascii -> bool) (n : nat) (s : list ascii) :
  forallb p s = true -> forallb p (skipn n s) = true.
Proof.
  revert s. induction n as [| n IH]; intros [| c s]; simpl; auto.
  intros H. apply andb_true_iff in H as [_ H]. auto.
Qed.

Lemma ordinal_upper_snake (s : list ascii) :
  forallb snakeChar s = true -> ordinal true s = None.
Proof.
  intros H. destruct (ordinal true s) as [n |] eqn:E; [| reflexivity].
  apply ordinal_inv in E as (m & d & c1 & c2 & rest & _ & K & F & _).
  apply ordinalSuffix_case in F as (_ & U & _).
  apply (forallb_skipn _ m) in H. rewrite K in H. simpl in H.
  apply andb_true_iff in H as [_ H]. apply andb_true_iff in H as [H _].
  apply snakeChar_not_upper in H. congruence.
Qed.

Lemma ordinal_lower_shape (s : list ascii) (n : nat) :
  ordinal false s = Some n -> shape (firstn n s).
Proof.
  intros E. apply ordinal_inv in E as (m & d & c1 & c2 & rest & R & K & F & ->).
  pose proof (run_le isDigit s) as Hle.
  assert (Hm : List.length (firstn m s) = m) by (apply firstn_length_le; lia).
  rewrite <- (firstn_skipn m s) at 1. rewrite K.
  replace (S m + 2)%nat with (List.length (firstn m s) + 3)%nat by lia.
  rewrite firstn_app_2. cbn [firstn].
  apply shape_ordinal; [| assumption].
  apply firstn_run. lia.
Qed.

(** *** The words found in snake_case text *)

Lemma shape_of_match (s : list ascii) (n : nat) :
  forallb snakeChar s = true -> reUnicodeWord s = Some n -> shape (firstn n s).
Proof.
  destruct s as [| c t]; [discriminate 2 |].
  intros H E. pose proof H as Hs. cbn [forallb] in H.
  apply andb_true_iff in H as [Hc _].
  destruct (snakeChar_cases c Hc) as [L | [D | ->]].
  - rewrite reUnicodeWord_lower in E by assumption. injection E as <-.
    cbn [firstn]. apply shape_lower. cbn [forallb]. rewrite L.
    now apply firstn_run.
  - rewrite reUnicodeWord_digit in E by assumption.
    rewrite ordinal_upper_snake in E by assumption.
    destruct (ordinal false (c :: t)) as [k |] eqn:O.
    + injection E as <-. now apply ordinal_lower_shape.
    + injection E as <-. cbn [firstn]. apply shape_digits. cbn [forallb].
      rewrite D. now apply firstn_run.
  - discriminate E.
Qed.

Lemma matchAll_shapes (s : list ascii) (skip : nat) :
  forallb snakeChar s = true -> Forall shape (matchAll reUnicodeWord skip s).
Proof.
  revert skip. induction s as [| c t IH]; intros skip H; [constructor |].
  pose proof H as Hs. cbn [forallb] in H. apply andb_true_iff in H as [_ Ht].
  cbn [matchAll]. destruct skip as [| k]; [| now apply IH].
  destruct (reUnicodeWord (c :: t)) as [[| n] |] eqn:E; try now apply IH.
  constructor; [| now apply IH].
  now apply (shape_of_match (c :: t) (S n)).
Qed.

(** *** A word followed by ["_"] or by nothing is found again *)

Lemma shape_wordChars (w : list ascii) : shape w -> forallb wordChar w = true.
Proof.
  assert (HL : forall l, forallb isLower l = true -> forallb wordChar l = true).
  { induction l as [| x l IH]; simpl; [reflexivity |].
    intros H. apply andb_true_iff in H as [Hx Hl].
    unfold wordChar at 1. rewrite Hx. auto. }
  assert (HD : forall l, forallb isDigit l = true -> forallb wordChar l = true).
  { induction l as [| x l IH]; simpl; [reflexivity |].
    intros H. apply andb_true_iff in H as [Hx Hl].
    unfold wordChar at 1. rewrite Hx, orb_true_r. auto. }
  intros [c l H | c l H | ds d c1 c2 H F]; auto.
  apply ordinalSuffix_case in F as (D & L1 & L2).
  rewrite forallb_app, (HD ds H). simpl. unfold wordChar.
  now rewrite D, L1, L2, orb_true_r.
Qed.

Lemma shape_nonempty (w : list ascii) : shape w -> exists c l, w = c :: l.
Proof.
  intros [c l _ | c l _ | [| x ds] d c1 c2 _ _]; simpl; eauto.
Qed.

Lemma ordinal_after_digits (upper : bool) (c : ascii) (w rest : list ascii) :
  forallb isDigit (c :: w) = true -> boundary rest ->
  ordinal upper ((c :: w) ++ rest) = None.
Proof.
  intros H B. destruct (ordinal upper ((c :: w) ++ rest)) as [n |] eqn:E; [| reflexivity].
  exfalso.
  apply ordinal_inv in E as (m & d & c1 & c2 & tl & R & K & F & _).
  rewrite run_app, (run_boundary isDigit rest eq_refl B) in R by assumption.
  cbn [List.length] in R. assert (m = List.length w) as -> by lia.
  rewrite skipn_app in K.
  replace (List.length w - List.length (c :: w))%nat with 0%nat in K
    by (cbn [List.length]; lia).
  cbn [skipn] in K.
  assert (L : List.length (skipn (List.length w) (c :: w)) = 1%nat)
    by (rewrite length_skipn; cbn [List.length]; lia).
  destruct (skipn (List.length w) (c :: w)) as [| x [| y l]]; try discriminate L.
  cbn [app] in K. injection K as -> K.
  apply ordinalSuffix_case in F as (_ & F & _).
  destruct B as [-> | [r ->]]; [discriminate K |].
  injection K as <- _. destruct upper; discriminate F.
Qed.

Lemma shape_stable (w rest : list ascii) :
  shape w -> boundary rest -> reUnicodeWord (w ++ rest) = Some (List.length w).
Proof.
  intros [c l H | c l H | ds d c1 c2 H F] B.
  - cbn [forallb] in H. apply andb_true_iff in H as [Hc Hl].
    cbn [app]. rewrite reUnicodeWord_lower by assumption.
    rewrite run_app, (run_boundary isLower rest eq_refl B) by assumption.
    cbn [List.length]. f_equal. lia.
  - pose proof H as Hw. cbn [forallb] in H. apply andb_true_iff in H as [Hc Hl].
    change ((c :: l) ++ rest) with (c :: (l ++ rest)).
    rewrite reUnicodeWord_digit by assumption.
    change (c :: (l ++ rest)) with ((c :: l) ++ rest).
    rewrite !ordinal_after_digits by assumption.
    rewrite run_app, (run_boundary isDigit rest eq_refl B) by assumption.
    cbn [List.length]. f_equal. lia.
  - pose proof (ordinalSuffix_case _ _ _ _ F) as (D & L1 & L2). cbn beta iota in L1, L2.
    rewrite <- app_assoc. cbn [app].
    set (s := ds ++ d :: c1 :: c2 :: rest).
    assert (R : run isDigit s = S (List.length ds)).
    { unfold s. rewrite run_app by assumption. cbn [run].
      rewrite D, (lower_not_digit c1 L1). lia. }
    assert (K : skipn (List.length ds) s = d :: c1 :: c2 :: rest).
    { unfold s. rewrite skipn_app, skipn_all, Nat.sub_diag. reflexivity. }
    assert (Hd : exists x t, s = x :: t /\ isDigit x = true).
    { unfold s. destruct ds as [| x ds]; cbn [app]; [eauto |].
      cbn [forallb] in H. apply andb_true_iff in H as [Hx _]. eauto. }
    destruct Hd as (x & t & Es & Hx).
    rewrite Es, reUnicodeWord_digit, <- Es by assumption.
    rewrite (ordinal_eq true s _ _ _ _ _ R K), (ordinal_eq false s _ _ _ _ _ R K).
    assert (U : ordinalSuffix true d c1 c2 = false).
    { destruct (ordinalSuffix true d c1 c2) eqn:E; [| reflexivity].
      apply ordinalSuffix_case in E as (_ & E & _).
      apply lower_not_upper in L1. congruence. }
    rewrite U, F. cbn [andb].
    assert (A : ordinalLookahead false (hd_error rest) = true)
      by (destruct B as [-> | [r ->]]; reflexivity).
    rewrite A, length_app. cbn [List.length]. f_equal. lia.
Qed.

Lemma unicodeWords_joinWords (ws : list (list ascii)) :
  Forall shape ws -> unicodeWords (joinWords ws) = ws.
Proof.
  unfold unicodeWords.
  induction 1 as [| w ws Hw Hws IH]; [reflexivity |].
  destruct (shape_nonempty w Hw) as (c & l & ->).
  destruct ws as [| w2 ws].
  - cbn [joinWords]. rewrite <- (app_nil_r (c :: l)) at 1.
    rewrite matchAll_word; [reflexivity |].
    apply shape_stable; [assumption | now left].
  - change (joinWords ((c :: l) :: w2 :: ws))
      with ((c :: l) ++ "_"%char :: joinWords (w2 :: ws)).
    rewrite matchAll_word.
    + rewrite matchAll_gap by apply reUnicodeWord_underscore. now rewrite IH.
    + apply shape_stable; [assumption | right; eauto].
Qed.

Lemma hasUnicodeWord_underscore (s : list ascii) :
  In "_"%char s -> hasUnicodeWord s = true.
Proof.
  induction s as [| c t IH]; [contradiction |].
  intros [-> | H]; [reflexivity |].
  cbn [hasUnicodeWord]. rewrite (IH H). now rewrite !orb_true_r.
Qed.

Lemma asciiWords_word (w : list ascii) :
  shape w -> asciiWords w = [w].
Proof.
  intros Hw. pose proof (shape_wordChars w Hw) as Hc.
  destruct (shape_nonempty w Hw) as (c & l & ->).
  unfold asciiWords. rewrite <- (app_nil_r (c :: l)) at 1.
  rewrite matchAll_word; [reflexivity |].
  rewrite app_nil_r. unfold reAsciiWord, plus.
  rewrite run_all; [reflexivity |].
  rewrite forallb_forall in *. intros x Hx. apply wordChar_asciiWordChar. auto.
Qed.

(** [_.words] gives back the words that were joined. *)
Lemma words_joinWords (ws : list (list ascii)) :
  Forall shape ws -> words (joinWords ws) = ws.
Proof.
  intros H. unfold words.
  destruct (hasUnicodeWord (joinWords ws)) eqn:E; [now apply unicodeWords_joinWords |].
  destruct ws as [| w [| w2 ws]].
  - reflexivity.
  - apply asciiWords_word. now inversion H.
  - rewrite hasUnicodeWord_underscore in E; [discriminate |].
    change (joinWords (w :: w2 :: ws)) with (w ++ "_"%char :: joinWords (w2 :: ws)).
    apply in_or_app. right. now left.
Qed.

(** *** [_.snakeCase] on lists of characters *)

Definition snakeCaseChars (s : list ascii) : list ascii :=
  joinWords
    (map (map lowerChar) (words (filter (fun c => negb (Ascii.eqb c "'")) s))).

Lemma str_app (a b : list ascii) : str (a ++ b) = (str a ++ str b)%string.
Proof.
  induction a as [| x a IH]; simpl; [reflexivity | now rewrite IH].
Qed.

Lemma toLowerCase_str (w : list ascii) : toLowerCase (str w) = str (map lowerChar w).
Proof.
  unfold toLowerCase, chars, str. now rewrite list_ascii_of_string_of_list_ascii.
Qed.

Lemma join_lowered (ws : list (list ascii)) :
  join "_" (map toLowerCase (map str ws)) = str (joinWords (map (map lowerChar) ws)).
Proof.
  induction ws as [| w ws IH]; [reflexivity |].
  destruct ws as [| w2 ws].
  - simpl. apply toLowerCase_str.
  - change (joinWords (map (map lowerChar) (w :: w2 :: ws)))
      with (map lowerChar w ++ "_"%char :: joinWords (map (map lowerChar) (w2 :: ws))).
    rewrite str_app. cbn [str string_of_list_ascii]. fold str.
    rewrite <- IH, <- toLowerCase_str. reflexivity.
Qed.

Lemma snakeCase_chars (k : string) : snakeCase k = str (snakeCaseChars (chars k)).
Proof.
  unfold snakeCase, compoundWords, snakeCaseChars. apply join_lowered.
Qed.

Lemma filter_snake (s : list ascii) :
  forallb snakeChar s = true -> filter (fun c => negb (Ascii.eqb c "'")) s = s.
Proof.
  induction s as [| c t IH]; simpl; [reflexivity |].
  intros H. apply andb_true_iff in H as [Hc Ht].
  now rewrite (snakeChar_not_apostrophe c Hc), IH.
Qed.

Lemma lowered_snake (s : list ascii) :
  forallb snakeChar s = true -> map lowerChar s = s.
Proof.
  induction s as [| c t IH]; simpl; [reflexivity |].
  intros H. apply andb_true_iff in H as [Hc Ht].
  now rewrite (not_upper_lowerChar c (snakeChar_not_upper c Hc)), IH.
Qed.

Lemma forallb_weaken (p q : ascii -> bool) (s : list ascii) :
  (forall c, p c = true -> q c = true) -> forallb p s = true -> forallb q s = true.
Proof.
  intros Hpq. rewrite !forallb_forall. auto.
Qed.

Lemma lowered_shapes (ws : list (list ascii)) :
  Forall shape ws -> map (map lowerChar) ws = ws.
Proof.
  induction 1 as [| w ws Hw _ IH]; simpl; [reflexivity |].
  rewrite IH. f_equal. apply lowered_snake.
  apply (forallb_weaken wordChar); [apply wordChar_snakeChar | now apply shape_wordChars].
Qed.

Lemma joinWords_snake (ws : list (list ascii)) :
  Forall shape ws -> forallb snakeChar (joinWords ws) = true.
Proof.
  induction 1 as [| w ws Hw _ IH]; [reflexivity |].
  assert (Hs : forallb snakeChar w = true)
    by (apply (forallb_weaken wordChar);
        [apply wordChar_snakeChar | now apply shape_wordChars]).
  destruct ws as [| w2 ws]; [exact Hs |].
  change (joinWords (w :: w2 :: ws)) with (w ++ "_"%char :: joinWords (w2 :: ws)).
  rewrite forallb_app, Hs. cbn [forallb andb]. now rewrite IH.
Qed.

Lemma snake_without_underscore (s : list ascii) :
  forallb snakeChar s = true -> hasUnicodeWord s = false -> forallb wordChar s = true.
Proof.
  intros H E. rewrite forallb_forall in *. intros c Hc.
  pose proof (H c Hc) as Hs. unfold snakeChar in Hs.
  apply orb_true_iff in Hs as [Hs | Hs]; [assumption |].
  apply Ascii.eqb_eq in Hs. subst c.
  rewrite hasUnicodeWord_underscore in E by assumption. discriminate.
Qed.

Lemma asciiWords_run (c : ascii) (l : list ascii) :
  forallb wordChar (c :: l) = true -> asciiWords (c :: l) = [c :: l].
Proof.
  intros H. unfold asciiWords. rewrite <- (app_nil_r (c :: l)) at 1.
  rewrite matchAll_word; [reflexivity |].
  rewrite app_nil_r. unfold reAsciiWord, plus.
  rewrite run_all; [reflexivity |].
  apply (forallb_weaken wordChar); [apply wordChar_asciiWordChar | assumption].
Qed.

(** [_.snakeCase] leaves its own result alone, on snake_case characters. *)
Lemma snakeCaseChars_idempotent (s : list ascii) :
  forallb snakeChar s = true ->
  snakeCaseChars (snakeCaseChars s) = snakeCaseChars s.
Proof.
  intros H.
  assert (Hr : hasUnicodeWord s = false -> snakeCaseChars s = s).
  { intros E. unfold snakeCaseChars. rewrite filter_snake by assumption.
    unfold words. rewrite E.
    destruct s as [| c l]; [reflexivity |].
    rewrite asciiWords_run by now apply snake_without_underscore.
    exact (lowered_snake (c :: l) H). }
  destruct (hasUnicodeWord s) eqn:E; [| now rewrite !Hr].
  assert (Hw : Forall shape (words s))
    by (unfold words; rewrite E; now apply matchAll_shapes).
  assert (Es : snakeCaseChars s = joinWords (words s)).
  { unfold snakeCaseChars. rewrite filter_snake by assumption.
    now rewrite lowered_shapes. }
  rewrite Es. unfold snakeCaseChars.
  rewrite filter_snake by now apply joinWords_snake.
  rewrite words_joinWords by assumption.
  now rewrite lowered_shapes.
Qed.

Lemma words_lower_led (c : ascii) (t : list ascii) :
  isLower c = true -> exists l ws, words (c :: t) = (c :: l) :: ws.
Proof.
  intros L. unfold words, unicodeWords, asciiWords.
  destruct (hasUnicodeWord (c :: t)).
  - rewrite (matchAll_first _ c t (run isLower t)) by now apply reUnicodeWord_lower.
    eauto.
  - rewrite (matchAll_first _ c t (run asciiWordChar t)); [eauto |].
    unfold reAsciiWord, plus. cbn [run].
    rewrite wordChar_asciiWordChar; [reflexivity |].
    unfold wordChar. now rewrite L.
Qed.

Lemma snakeCaseChars_lower_led (c : ascii) (t : list ascii) :
  isLower c = true -> forallb snakeChar (c :: t) = true ->
  exists l, snakeCaseChars (c :: t) = c :: l.
Proof.
  intros L H. unfold snakeCaseChars. rewrite filter_snake by assumption.
  destruct (words_lower_led c t L) as (l & ws & ->).
  cbn [map]. rewrite (not_upper_lowerChar c (lower_not_upper c L)).
  destruct (map (map lowerChar) ws); cbn [joinWords app]; eauto.
Qed.

(** *** [format] *)

Lemma format_lower_led (c : ascii) (t : string) :
  isLower c = true -> format (Some (String c t)) = snakeCase (String c t).
Proof.
  intros L. unfold format, allDigits, firstIs. cbn [chars list_ascii_of_string charAt0].
  cbn [forallb]. now rewrite (lower_not_digit c L).
Qed.

Lemma numbers_digit (c : ascii) : isDigit c = true -> exists word, numbers c = Some word.
Proof.
  destruct c as [[] [] [] [] [] [] [] []]; intros H;
    try discriminate H; eexists; reflexivity.
Qed.

Lemma snakeTail_chars (s : list ascii) :
  snakeTail s = true -> forallb snakeChar s = true.
Proof.
  induction s as [| c t IH]; [reflexivity |].
  cbn [snakeTail forallb]. destruct (Ascii.eqb_spec c "_") as [-> | N].
  - destruct t as [| d t]; [discriminate |].
    intros H. apply andb_true_iff in H as [_ H]. now rewrite IH.
  - intros H. apply andb_true_iff in H as [Hc H].
    now rewrite (wordChar_snakeChar c Hc), IH.
Qed.

Lemma isSnakeCase_chars (k : string) :
  isSnakeCase k = true -> startsWithDigit k = false ->
  exists c t, k = String c t /\ isLower c = true /\ forallb snakeChar (chars k) = true.
Proof.
  unfold isSnakeCase, startsWithDigit, firstIs.
  destruct k as [| c t]; [discriminate |].
  cbn [chars list_ascii_of_string charAt0].
  intros H D. apply andb_true_iff in H as [Hc Ht].
  exists c, t. split; [reflexivity |]. split.
  - unfold wordChar in Hc. rewrite D, orb_false_r in Hc. exact Hc.
  - cbn [forallb]. now rewrite (wordChar_snakeChar c Hc), snakeTail_chars.
Qed.

Local Close Scope list_scope.

(** C9.  [format] answers the empty string for an absent or empty key; it
    is defined on every string, and the one lookup it makes, in [numbers],
    always finds a word.  On a key that is already in snake_case and does
    not start with a digit, applying [format] to its own result changes
    nothing. *)
Theorem C9_format_total_and_idempotent :
  format None = EmptyString
  /\ format (Some EmptyString) = EmptyString
  /\ (forall s, firstIs isDigit s = true ->
        exists c word, charAt0 s = Some c /\ numbers c = Some word
                       /\ spellFirst s = word ++ substr1 s)
  /\ (forall k, isSnakeCase k = true -> startsWithDigit k = false ->
        format (Some (format (Some k))) = format (Some k)).
Proof.
  split; [reflexivity |]. split; [reflexivity |]. split.
  - intros s H. unfold firstIs, spellFirst in *.
    destruct (charAt0 s) as [c |]; [| discriminate].
    destruct (numbers_digit c H) as [word E].
    exists c, word. now rewrite E.
  - intros k S D.
    destruct (isSnakeCase_chars k S D) as (c & t & -> & L & H).
    rewrite format_lower_led by assumption.
    rewrite snakeCase_chars.
    destruct (snakeCaseChars_lower_led c (chars t) L H) as [l E].
    change (chars (String c t)) with (c :: chars t)%list in *.
    pose proof (snakeCaseChars_idempotent _ H) as I.
    rewrite E in *. cbn [str string_of_list_ascii]. fold str.
    rewrite format_lower_led by assumption.
    rewrite snakeCase_chars.
    change (String c (str l)) with (str (c :: l)).
    unfold chars, str in *. rewrite list_ascii_of_string_of_list_ascii.
    now rewrite I.
Qed.

Lemma C9_format_idempotent_witness :
  format (Some (format (Some "user_name2"))) = format (Some "user_name2").
Proof.
  apply (proj2 (proj2 (proj2 C9_format_total_and_idempotent))); reflexivity.
Defined.


(** * Further properties of the code *)

Local Open Scope list_scope.
Local Open Scope string_scope.

(** ** [crystalType] on numbers *)

(** X1.  Every whole number strictly between -2147483648 and 2147483647 is typed
    [Int32], every other whole number [Int64], in both implementations. *)
Theorem crystalType_whole_number (baseClass : string) (allNilable : bool) (z : Z) :
  TS.crystalType baseClass allNilable (int z)
  = (if ((-2147483648 <? z) && (z <? 2147483647))%Z then "Int32" else "Int64")
  /\ JS.crystalType (int z)
     = (if ((-2147483648 <? z) && (z <? 2147483647))%Z then "Int32" else "Int64").
Proof.
  split; apply numberType_integer.
Qed.

Lemma whole_iff_rem (q : Q) :
  (exists z, Qeq q (inject_Z z)) <-> Z.rem (Qnum q) (Zpos (Qden q)) = 0%Z.
Proof.
  split.
  - intros [z H]. unfold Qeq, inject_Z in H. cbn [Qnum Qden] in H.
    rewrite Z.mul_1_r in H. rewrite H. apply Z.rem_mul. discriminate.
  - intros H. exists (Z.quot (Qnum q) (Zpos (Qden q))).
    unfold Qeq, inject_Z. cbn [Qnum Qden]. rewrite Z.mul_1_r.
    pose proof (Z.quot_rem' (Qnum q) (Zpos (Qden q))) as E.
    rewrite H, Z.add_0_r in E. rewrite E at 1. apply Z.mul_comm.
Qed.

(** X2.  A finite number is typed [Float64] exactly when it is not a whole
    number; the infinite values and NaN are typed [Float64] too. *)
Theorem crystalType_Float64 (baseClass : string) (allNilable : bool) (q : Q) :
  (TS.crystalType baseClass allNilable (JNumber (Finite q)) = "Float64"
   <-> ~ exists z, Qeq q (inject_Z z))
  /\ (JS.crystalType (JNumber (Finite q)) = "Float64"
      <-> ~ exists z, Qeq q (inject_Z z))
  /\ (forall negative, JS.crystalType (JNumber (Infinity negative)) = "Float64"
                       /\ TS.crystalType baseClass allNilable (JNumber (Infinity negative))
                          = "Float64")
  /\ JS.crystalType (JNumber NaN) = "Float64"
  /\ TS.crystalType baseClass allNilable (JNumber NaN) = "Float64".
Proof.
  assert (H : numberType (Finite q) = "Float64" <-> ~ exists z, Qeq q (inject_Z z)).
  { rewrite whole_iff_rem. split.
    - intros E R. revert E. unfold numberType, JsNumber.mod1, JsNumber.strictEq,
        JsNumber.ofZ, inject_Z, Qeq_bool. cbn [Qnum Qden]. rewrite R. cbn.
      destruct (_ && _); discriminate.
    - apply numberType_fraction. }
  split; [exact H |]. split; [exact H |].
  split; [intros []; split; reflexivity |]. split; reflexivity.
Qed.

(** ** Dispatch on the name of the type *)

Lemma numberType_names (n : number) :
  numberType n = "Int32" \/ numberType n = "Int64" \/ numberType n = "Float64".
Proof.
  unfold numberType.
  destruct (JsNumber.strictEq _ _); [destruct (_ && _) |]; auto.
Qed.

(** X3.  [parseClass] treats a member as a nested class when [crystalType]
    answers ["class"]: that happens for objects and for nothing else. *)
Theorem ts_crystalType_class_iff_object
        (baseClass : string) (allNilable : bool) (val : json) :
  TS.crystalType baseClass allNilable val = "class"
  <-> exists members, val = JObject members.
Proof.
  split.
  - destruct val as [| b | n | s | arr | members]; cbn; try discriminate.
    + destruct (numberType_names n) as [E | [E | E]]; rewrite E; discriminate.
    + eauto.
  - intros [members ->]. reflexivity.
Qed.

(** X4.  [Util.crystalType] answers one of eight names, ["class"] exactly for
    objects and ["array"] exactly for arrays, which is what
    [CrystalArray.toString] and [CrystalClass.parse] test. *)
Theorem js_crystalType_names (val : json) :
  In (JS.crystalType val)
     ["JSON::Any"; "String"; "Int32"; "Int64"; "Float64"; "Bool"; "array"; "class"]
  /\ (JS.crystalType val = "class" <-> exists members, val = JObject members)
  /\ (JS.crystalType val = "array" <-> exists items, val = JArray items).
Proof.
  destruct val as [| b | n | s | arr | members]; cbn [JS.crystalType];
    try (split; [cbn; tauto |];
         split; (split; [discriminate || eauto | intros [x H]; discriminate || reflexivity])).
  destruct (numberType_names n) as [E | [E | E]]; rewrite E;
    (split; [cbn; tauto |];
     split; (split; [discriminate | intros [x H]; discriminate])).
Qed.

(** ** The rewrite of raw text *)

(** [s.includes(".0")]. *)
Fixpoint hasDotZero (s : string) : bool :=
  match s with
  | EmptyString => false
  | String c t =>
      match t with
      | String d _ => (Ascii.eqb c "." && Ascii.eqb d "0") || hasDotZero t
      | EmptyString => false
      end
  end.

Lemma hasDotZero_other (c : ascii) (t : string) :
  Ascii.eqb c "." = false -> hasDotZero (String c t) = hasDotZero t.
Proof.
  intros H. destruct t as [| d t]; [reflexivity |].
  cbn [hasDotZero]. now rewrite H.
Qed.

Lemma replaceDotZero_cons (c : ascii) (t : string) :
  exists u, replaceDotZero (String c t) = String c u.
Proof.
  destruct t as [| d t]; [now exists EmptyString |].
  rewrite replaceDotZero_pair.
  destruct (Ascii.eqb_spec c "."); cbn [andb]; [| eauto].
  destruct (Ascii.eqb d "0"); subst; eauto.
Qed.

Lemma replaceDotZero_clean (text : string) : hasDotZero (replaceDotZero text) = false.
Proof.
  induction text as [| c | c d t IHt IHd] using string_pairs_ind; try reflexivity.
  rewrite replaceDotZero_pair.
  destruct (Ascii.eqb c "." && Ascii.eqb d "0")%bool eqn:E.
  - change (hasDotZero (String "." (String "1" (replaceDotZero t))))
      with (hasDotZero (String "1" (replaceDotZero t))).
    rewrite hasDotZero_other by reflexivity. exact IHt.
  - destruct (replaceDotZero_cons d t) as [u Eu]. rewrite Eu in *.
    change (hasDotZero (String c (String d u)))
      with ((Ascii.eqb c "." && Ascii.eqb d "0") || hasDotZero (String d u))%bool.
    now rewrite E, IHd.
Qed.

Lemma replaceDotZero_fixed (text : string) :
  hasDotZero text = false -> replaceDotZero text = text.
Proof.
  induction text as [| c | c d t IHt IHd] using string_pairs_ind; try reflexivity.
  change (hasDotZero (String c (String d t)))
    with ((Ascii.eqb c "." && Ascii.eqb d "0") || hasDotZero (String d t))%bool.
  intros H. apply orb_false_iff in H as [E H].
  rewrite replaceDotZero_pair, E. now rewrite IHd.
Qed.

(** X5.  After the rewrite no [".0"] is left in the text, so rewriting twice is
    rewriting once. *)
Theorem replaceDotZero_removes_every_occurrence (text : string) :
  hasDotZero (replaceDotZero text) = false
  /\ replaceDotZero (replaceDotZero text) = replaceDotZero text.
Proof.
  split; [apply replaceDotZero_clean |].
  apply replaceDotZero_fixed, replaceDotZero_clean.
Qed.

(** X6.  The rewrite leaves a text as it is exactly when the text holds no
    [".0"]: every other text reaches [JSON.parse] changed. *)
Theorem replaceDotZero_unchanged_iff (text : string) :
  replaceDotZero text = text <-> hasDotZero text = false.
Proof.
  split; [| apply replaceDotZero_fixed].
  intros E. rewrite <- E. apply replaceDotZero_clean.
Qed.

(** ** Array types *)

Lemma baseUniq_app (a b result : list string) :
  baseUniq (a ++ b) result = baseUniq b (baseUniq a result).
Proof.
  revert result. induction a as [| x a IH]; intros result; cbn; [reflexivity |].
  destruct (existsb (String.eqb x) result); apply IH.
Qed.

Lemma existsb_eqb_In (x : string) (l : list string) :
  existsb (String.eqb x) l = true <-> In x l.
Proof.
  rewrite existsb_exists. split.
  - intros (y & Hy & E). apply String.eqb_eq in E. now subst.
  - intros H. exists x. now rewrite String.eqb_refl.
Qed.

Lemma uniq_seen (l : list string) (x : string) :
  In x l -> uniq (l ++ [x]) = uniq l.
Proof.
  intros H. unfold uniq. rewrite baseUniq_app. cbn [baseUniq].
  fold (uniq l).
  assert (E : existsb (String.eqb x) (uniq l) = true).
  { apply existsb_eqb_In. rewrite uniq_firstOccurrences. now apply firstOccurrences_In. }
  now rewrite E.
Qed.

Lemma unionOf_seen (types : list string) (t : string) :
  In t types -> unionOf (types ++ [t]) = unionOf types.
Proof.
  intros H. unfold unionOf. now rewrite uniq_seen.
Qed.

(** X7.  An element whose type already occurs in the array does not change the
    type of the array. *)
Theorem arrayType_absorbs_seen_type
        (baseClass : string) (allNilable : bool) (transform : string -> string)
        (arr : list json) (v : json) :
  (In (TS.parseScope baseClass allNilable v) (map (TS.parseScope baseClass allNilable) arr) ->
   TS.arrayType baseClass allNilable (arr ++ [v]) = TS.arrayType baseClass allNilable arr)
  /\ (In (JS.itemType transform v) (map (JS.itemType transform) arr) ->
      JS.arrayToString transform (JArray (arr ++ [v])) = JS.arrayToString transform (JArray arr)).
Proof.
  split; intros H.
  - unfold TS.arrayType. rewrite map_app. now apply unionOf_seen.
  - change (unionOf (map (JS.itemType transform) (arr ++ [v]))
            = unionOf (map (JS.itemType transform) arr)).
    rewrite map_app. now apply unionOf_seen.
Qed.

Lemma arrayType_absorbs_witness :
  TS.arrayType "AutoGenerated" false ([int 1; JString "x"] ++ [int 2])
  = TS.arrayType "AutoGenerated" false [int 1; JString "x"].
Proof.
  apply (proj1 (arrayType_absorbs_seen_type "AutoGenerated" false (fun k => k)
                                            [int 1; JString "x"] (int 2))).
  left. reflexivity.
Defined.

Lemma filter_none (p : string -> bool) (l : list string) :
  (forall y, In y l -> p y = false) -> filter p l = [].
Proof.
  induction l as [| y t IH]; cbn; intros H; [reflexivity |].
  rewrite (H y) by auto. apply IH. auto.
Qed.

Lemma firstOccurrences_constant (t : string) (types : list string) :
  (forall x, In x types -> x = t) -> firstOccurrences (t :: types) = [t].
Proof.
  intros H. cbn [firstOccurrences]. f_equal.
  apply filter_none. intros y Hy. apply (proj1 (firstOccurrences_In _ _)) in Hy.
  rewrite (H y Hy), String.eqb_refl. reflexivity.
Qed.

Lemma unionOf_constant (t : string) (types : list string) :
  types <> [] -> (forall x, In x types -> x = t) -> unionOf types = arrayOf [t].
Proof.
  intros N H. rewrite unionOf_members.
  destruct types as [| y l]; [contradiction |].
  cbn [unionMembers]. rewrite (H y) by now left.
  now rewrite firstOccurrences_constant by (intros x Hx; apply H; now right).
Qed.

(** X8.  An array whose elements all have the type [t] has the type
    [Array(t)]. *)
Theorem arrayType_homogeneous
        (baseClass : string) (allNilable : bool) (transform : string -> string)
        (arr : list json) (t : string) :
  arr <> [] ->
  ((forall v, In v arr -> TS.parseScope baseClass allNilable v = t) ->
   TS.arrayType baseClass allNilable arr = "Array(" ++ t ++ ")")
  /\ ((forall v, In v arr -> JS.itemType transform v = t) ->
      JS.arrayToString transform (JArray arr) = "Array(" ++ t ++ ")").
Proof.
  intros N.
  assert (M : forall f : json -> string, map f arr <> [])
    by (intros f E; apply map_eq_nil in E; contradiction).
  split; intros H.
  - unfold TS.arrayType. rewrite (unionOf_constant t); [reflexivity | apply M |].
    intros x Hx. apply in_map_iff in Hx as (v & <- & Hv). auto.
  - change (unionOf (map (JS.itemType transform) arr) = "Array(" ++ t ++ ")").
    rewrite (unionOf_constant t); [reflexivity | apply M |].
    intros x Hx. apply in_map_iff in Hx as (v & <- & Hv). auto.
Qed.

Lemma arrayType_homogeneous_witness :
  TS.arrayType "AutoGenerated" false [int 1; int 2; int 3] = "Array(" ++ "Int32" ++ ")".
Proof.
  apply (arrayType_homogeneous "AutoGenerated" false (fun k => k) [int 1; int 2; int 3] "Int32").
  - discriminate.
  - intros v [<- | [<- | [<- | []]]]; reflexivity.
Defined.

(** ** The two implementations on arrays without objects *)

(** No object occurs in the value, at any depth of arrays. *)
Fixpoint objectFree (v : json) : bool :=
  match v with
  | JArray items => forallb objectFree items
  | JObject _ => false
  | _ => true
  end.

Lemma itemType_scalar (transform : string -> string) (v : json) :
  match v with
  | JArray _ | JObject _ => True
  | _ => JS.itemType transform v = JS.crystalType v
  end.
Proof.
  destruct v as [| b | n | s | arr | members]; try exact I; try reflexivity.
  unfold JS.itemType. cbn [JS.crystalType].
  destruct (numberType_names n) as [E | [E | E]]; rewrite E; reflexivity.
Qed.

Lemma parseScope_objectFree
      (baseClass : string) (allNilable : bool) (transform : string -> string) :
  forall v, objectFree v = true ->
            TS.parseScope baseClass allNilable v = JS.itemType transform v.
Proof.
  fix IH 1. intros v H.
  destruct v as [| b | n | s | arr | members]; try discriminate H.
  - reflexivity.
  - reflexivity.
  - symmetry. exact (itemType_scalar transform (JNumber n)).
  - reflexivity.
  - change (unionOf (map (TS.parseScope baseClass allNilable) arr)
            = unionOf (map (JS.itemType transform) arr)).
    f_equal. cbn [objectFree] in H.
    induction arr as [| x arr IHarr]; [reflexivity |].
    cbn [forallb] in H. apply andb_true_iff in H as [Hx Harr].
    cbn [map]. f_equal; [exact (IH x Hx) | exact (IHarr Harr)].
Qed.

(** X9.  On an array that holds no object, at any depth, [arrayType] of
    [src/json-to-crystal.ts] and [CrystalArray.toString] write the same
    type. *)
Theorem arrayType_agrees_without_objects
        (baseClass : string) (allNilable : bool) (transform : string -> string)
        (arr : list json) :
  objectFree (JArray arr) = true ->
  TS.arrayType baseClass allNilable arr = JS.arrayToString transform (JArray arr).
Proof.
  intros H.
  exact (parseScope_objectFree baseClass allNilable transform (JArray arr) H).
Qed.

Lemma arrayType_agrees_witness :
  TS.arrayType "AutoGenerated" false [int 1; JArray [JNull; JString "a"]; JArray []]
  = JS.arrayToString (fun k => k) (JArray [int 1; JArray [JNull; JString "a"]; JArray []]).
Proof.
  apply (arrayType_agrees_without_objects "AutoGenerated" false (fun k => k)).
  reflexivity.
Defined.

(** ** [JsonToCrystal.parse] *)









(** A document that is a number, a boolean or [null]. *)
Definition isScalar (data : json) : bool :=
  match data with
  | JNull | JBool _ | JNumber _ => true
  | _ => false
  end.

(** X13.  For a text that reads as a number, a boolean or [null], [parse] of
    [src/json-to-crystal.ts] returns the name of the type, and [parse] of
    the JavaScript implementation throws [Unsupported data type]. *)
Theorem parse_scalar_document
        (baseClass : string) (allNilable : bool) (opts : JS.options)
        (JSON_parse : string -> option json) (fuel : nat) (text : string) (data : json) :
  JSON_parse (replaceDotZero text) = Some data ->
  isScalar data = true ->
  TS.parse baseClass allNilable JSON_parse text
  = Returns (TS.crystalType baseClass allNilable data)
  /\ JS.parse opts JSON_parse (S fuel) (JString text)
     = Some (Throws (UnsupportedDataType (JS.typeof data))).
Proof.
  intros E S. unfold TS.parse. cbn [JS.parse]. rewrite E.
  destruct data; try discriminate S; destruct fuel; split; reflexivity.
Qed.

Lemma parse_scalar_document_witness :
  TS.parse "AutoGenerated" false parseLiteral "true" = Returns "Bool"
  /\ JS.parse JS.defaultOptions parseLiteral 1 (JString "true")
     = Some (Throws (UnsupportedDataType "boolean")).
Proof.
  apply (parse_scalar_document "AutoGenerated" false JS.defaultOptions parseLiteral
                               0 "true" (JBool true)); reflexivity.
Defined.

(** X14.  [CrystalClass.parse] returns nothing exactly for an object without
    keys, and then [JsonToCrystal.parse] returns [undefined]. *)
Theorem js_class_undefined_iff_no_keys
        (opts : JS.options) (JSON_parse : string -> option json) (fuel : nat)
        (name : string) (members : list (string * json)) :
  (JS.classToString opts name (JObject members) = None <-> members = [])
  /\ (JS.parse opts JSON_parse fuel (JObject members) = Some ReturnsUndefined
      <-> members = []).
Proof.
  assert (H : forall n, JS.classToString opts n (JObject members) = None <-> members = []).
  { intros n. cbn [JS.classToString]. unfold JS.classLines.
    destruct members; split; intros E; try reflexivity; discriminate. }
  split; [apply H |].
  rewrite <- (H (JS.baseClassName opts)).
  destruct fuel; cbn [JS.parse];
    destruct (JS.classToString opts (JS.baseClassName opts) (JObject members));
    split; intros E; try reflexivity; discriminate.
Qed.

(** ** The words of any text *)

Local Open Scope list_scope.

(** The words that [_.words] finds in a text of 7-bit characters: letters
    only, digits only, or an ordinal such as [21st] or [4TH]. *)
Inductive rawShape : list ascii -> Prop :=
| raw_letters (c : ascii) (w : list ascii) :
    forallb isAlpha (c :: w) = true -> rawShape (c :: w)
| raw_digits (c : ascii) (w : list ascii) :
    forallb isDigit (c :: w) = true -> rawShape (c :: w)
| raw_ordinal (upper : bool) (ds : list ascii) (d c1 c2 : ascii) :
    forallb isDigit ds = true -> ordinalSuffix upper d c1 c2 = true ->
    rawShape (ds ++ [d; c1; c2]).

Lemma upper_not_lower (c : ascii) : isUpper c = true -> isLower c = false.
Proof. each_char c. Qed.

Lemma alpha_lowered (c : ascii) : isAlpha c = true -> isLower (lowerChar c) = true.
Proof. each_char c. Qed.


Lemma alnum_asciiWordChar (c : ascii) : isAlnum c = true -> asciiWordChar c = true.
Proof. each_char c. Qed.

Lemma lower_alpha (c : ascii) : isLower c = true -> isAlpha c = true.
Proof. unfold isAlpha. now intros ->. Qed.

Lemma upper_alpha (c : ascii) : isUpper c = true -> isAlpha c = true.
Proof. unfold isAlpha. intros ->. apply orb_true_r. Qed.

Lemma rawShape_nonempty (w : list ascii) : rawShape w -> exists c l, w = c :: l.
Proof.
  intros [c l _ | c l _ | upper [| x ds] d c1 c2 _ _]; cbn; eauto.
Qed.

Lemma firstn_positive (n : nat) (s : list ascii) : rawShape (firstn n s) -> (0 < n)%nat.
Proof.
  intros H. destruct (rawShape_nonempty _ H) as (c & l & E).
  destruct n; [discriminate E | lia].
Qed.

(** *** What each alternative of [reUnicodeWord] matches *)

Lemma plus_inv (p : ascii -> bool) (s : list ascii) (n : nat) :
  plus p s = Some n -> n = run p s /\ (0 < n)%nat.
Proof.
  unfold plus. destruct (run p s) as [| k]; [discriminate |].
  intros [= <-]. split; [reflexivity | lia].
Qed.

Lemma lowerThenBoundary_inv (s : list ascii) (n : nat) :
  lowerThenBoundary s = Some n -> n = run isLower s /\ (0 < n)%nat.
Proof.
  unfold lowerThenBoundary. destruct (plus isLower s) as [k |] eqn:E; [| discriminate].
  apply plus_inv in E.
  destruct (after k s) as [c |]; [destruct (isBreak c || isUpper c)%bool |];
    intros [= <-]; assumption.
Qed.

Lemma upperThenBoundary_inv (s : list ascii) (n : nat) :
  upperThenBoundary s = Some n -> (0 < n <= run isUpper s)%nat.
Proof.
  unfold upperThenBoundary. destruct (plus isUpper s) as [k |] eqn:E; [| discriminate].
  apply plus_inv in E as [-> K].
  destruct (after _ s) as [c |]; [| intros [= <-]; lia].
  destruct (isBreak c); [intros [= <-]; lia |].
  destruct (isLower c && (2 <=? run isUpper s)%nat)%bool eqn:F; [| discriminate].
  apply andb_true_iff in F as [_ F]. apply Nat.leb_le in F.
  intros [= <-]. lia.
Qed.

Lemma run_rawShape (p : ascii -> bool) (s : list ascii) (n : nat) :
  (0 < n <= run p s)%nat ->
  (forall l, forallb p l = true -> forall c w, l = c :: w -> rawShape (c :: w)) ->
  rawShape (firstn n s).
Proof.
  intros [Hn Hr] K.
  pose proof (firstn_run p s n Hr) as F.
  destruct n as [| m]; [lia |].
  destruct s as [| c t]; [cbn in Hr; lia |].
  cbn [firstn] in *. now apply (K _ F).
Qed.

Lemma letters_rawShape (p : ascii -> bool) :
  (forall c, p c = true -> isAlpha c = true) ->
  forall l, forallb p l = true -> forall c w, l = c :: w -> rawShape (c :: w).
Proof.
  intros Hp l F c w ->. apply raw_letters.
  now apply (forallb_weaken p).
Qed.

Lemma digits_rawShape :
  forall l, forallb isDigit l = true -> forall c w, l = c :: w -> rawShape (c :: w).
Proof.
  intros l F c w ->. now apply raw_digits.
Qed.

Lemma optUpper_rawShape (r : list ascii -> option nat) (s : list ascii) (n : nat) :
  (forall s n, r s = Some n -> n = run isLower s /\ (0 < n)%nat) ->
  optUpper r s = Some n -> rawShape (firstn n s).
Proof.
  intros R.
  assert (L : forall s n, r s = Some n -> rawShape (firstn n s)).
  { intros s0 n0 E. apply R in E as [-> K].
    apply (run_rawShape isLower); [lia |].
    apply letters_rawShape, lower_alpha. }
  destruct s as [| c t]; [apply L |].
  cbn [optUpper]. destruct (isUpper c) eqn:U; [| apply L].
  destruct (r t) as [m |] eqn:E; [| apply L].
  intros [= <-]. apply R in E as [-> K].
  cbn [firstn]. apply raw_letters. cbn [forallb].
  rewrite (upper_alpha c U). cbn [andb].
  apply (forallb_weaken isLower); [apply lower_alpha |].
  now apply firstn_run.
Qed.

Lemma ordinal_rawShape (upper : bool) (s : list ascii) (n : nat) :
  ordinal upper s = Some n -> rawShape (firstn n s).
Proof.
  intros E. apply ordinal_inv in E as (m & d & c1 & c2 & rest & R & K & F & ->).
  pose proof (run_le isDigit s) as Hle.
  assert (Hm : List.length (firstn m s) = m) by (apply firstn_length_le; lia).
  rewrite <- (firstn_skipn m s) at 1. rewrite K.
  replace (S m + 2)%nat with (List.length (firstn m s) + 3)%nat by lia.
  rewrite firstn_app_2. cbn [firstn].
  apply (raw_ordinal upper); [| assumption].
  apply firstn_run. lia.
Qed.

Lemma reUnicodeWord_rawShape (s : list ascii) (n : nat) :
  reUnicodeWord s = Some n -> rawShape (firstn n s).
Proof.
  unfold reUnicodeWord. cbn [firstMatch].
  destruct (optUpper lowerThenBoundary s) as [k |] eqn:A1.
  { intros [= <-]. apply (optUpper_rawShape lowerThenBoundary); [| assumption].
    apply lowerThenBoundary_inv. }
  destruct (upperThenBoundary s) as [k |] eqn:A2.
  { intros [= <-]. apply upperThenBoundary_inv in A2.
    apply (run_rawShape isUpper); [assumption |].
    apply letters_rawShape, upper_alpha. }
  destruct (optUpper (plus isLower) s) as [k |] eqn:A3.
  { intros [= <-]. apply (optUpper_rawShape (plus isLower)); [| assumption].
    apply plus_inv. }
  destruct (plus isUpper s) as [k |] eqn:A4.
  { intros [= <-]. apply plus_inv in A4 as [-> K].
    apply (run_rawShape isUpper); [lia |].
    apply letters_rawShape, upper_alpha. }
  destruct (ordinal true s) as [k |] eqn:A5.
  { intros [= <-]. now apply (ordinal_rawShape true). }
  destruct (ordinal false s) as [k |] eqn:A6.
  { intros [= <-]. now apply (ordinal_rawShape false). }
  destruct (plus isDigit s) as [k |] eqn:A7; [| discriminate].
  intros [= <-]. apply plus_inv in A7 as [-> K].
  apply (run_rawShape isDigit); [lia |].
  apply digits_rawShape.
Qed.

(** *** The words of a text without camel case, digits next to letters or
    punctuation *)



Lemma alnum_cases (c : ascii) : isAlnum c = true -> isAlpha c = true \/ isDigit c = true.
Proof. unfold isAlnum. now rewrite orb_true_iff. Qed.







(** *** Lower-casing a word *)







(** *** The first word of a text that starts with a letter or a digit *)

Lemma alnum_not_apostrophe (c : ascii) :
  isAlnum c = true -> negb (Ascii.eqb c "'") = true.
Proof. each_char c. Qed.

Lemma reUnicodeWord_alnum (c : ascii) (t : list ascii) :
  isAlnum c = true -> exists n, reUnicodeWord (c :: t) = Some (S n).
Proof.
  intros H.
  assert (E : exists n, reUnicodeWord (c :: t) = Some n).
  { destruct (alnum_cases c H) as [A | D].
    - unfold isAlpha in A. apply orb_true_iff in A as [L | U].
      + rewrite reUnicodeWord_lower by assumption. eauto.
      + unfold reUnicodeWord. cbn [firstMatch].
        destruct (optUpper lowerThenBoundary (c :: t)); [eauto |].
        destruct (upperThenBoundary (c :: t)); [eauto |].
        destruct (optUpper (plus isLower) (c :: t)); [eauto |].
        unfold plus at 1. cbn [run]. rewrite U. eauto.
    - rewrite reUnicodeWord_digit by assumption.
      destruct (ordinal true (c :: t)); [eauto |].
      destruct (ordinal false (c :: t)); eauto. }
  destruct E as [n E]. pose proof (reUnicodeWord_rawShape _ _ E) as S.
  apply firstn_positive in S. destruct n as [| m]; [lia | eauto].
Qed.

Lemma words_alnum_led (c : ascii) (t : list ascii) :
  isAlnum c = true -> exists l ws, words (c :: t) = (c :: l) :: ws.
Proof.
  intros H. unfold words, unicodeWords, asciiWords.
  destruct (hasUnicodeWord (c :: t)).
  - destruct (reUnicodeWord_alnum c t H) as [n E].
    rewrite (matchAll_first _ c t n E). eauto.
  - rewrite (matchAll_first _ c t (run asciiWordChar t)); [eauto |].
    unfold reAsciiWord, plus. cbn [run].
    now rewrite (alnum_asciiWordChar c H).
Qed.

Lemma snakeCase_alnum_led (c : ascii) (t : string) :
  isAlnum c = true -> exists r, snakeCase (String c t) = String (lowerChar c) r.
Proof.
  intros H. rewrite snakeCase_chars. unfold snakeCaseChars.
  change (chars (String c t)) with (c :: chars t).
  cbn [filter]. rewrite (alnum_not_apostrophe c H).
  destruct (words_alnum_led c (filter (fun x => negb (Ascii.eqb x "'")) (chars t)) H)
    as (l & ws & ->).
  cbn [map].
  destruct (map (map lowerChar) ws); cbn [joinWords app str string_of_list_ascii]; eauto.
Qed.

Lemma numbers_lower (c : ascii) (word : string) :
  numbers c = Some word -> exists c' w, word = String c' w /\ isLower c' = true.
Proof.
  destruct c as [[] [] [] [] [] [] [] []]; cbn; intros E;
    try discriminate E; injection E as <-; eauto.
Qed.


Lemma lower_alpha_alnum (c : ascii) : isLower c = true -> isAlnum c = true.
Proof. unfold isAlnum, isAlpha. now intros ->. Qed.

Lemma lower_lowered (c : ascii) : isLower c = true -> lowerChar c = c.
Proof. intros H. apply not_upper_lowerChar, lower_not_upper, H. Qed.

Local Open Scope string_scope.

(** ** [format] on any key *)



Lemma format_alnum_led (key : string) :
  firstIs isAlnum key = true -> firstIs isLower (format (Some key)) = true.
Proof.
  unfold firstIs at 1. destruct key as [| c t]; [discriminate |].
  cbn [charAt0]. intros H. unfold format.
  destruct (allDigits (String c t)).
  - destruct (snakeCase_alnum_led "n" ("um" ++ String c t) eq_refl) as [r E].
    change ("num" ++ String c t) with (String "n" ("um" ++ String c t)).
    now rewrite E.
  - destruct (firstIs isDigit (String c t)) eqn:D.
    + unfold firstIs in D. cbn [charAt0] in D.
      unfold spellFirst. cbn [charAt0 substr1].
      destruct (numbers_digit c D) as [word E]. rewrite E.
      destruct (numbers_lower c word E) as (c' & w & -> & L).
      cbn [append].
      destruct (snakeCase_alnum_led c' (w ++ t) (lower_alpha_alnum c' L)) as [r Er].
      rewrite Er. unfold firstIs. cbn [charAt0]. now rewrite lower_lowered.
    + unfold firstIs in D. cbn [charAt0] in D.
      destruct (snakeCase_alnum_led c t H) as [r Er]. rewrite Er.
      unfold firstIs. cbn [charAt0]. apply alpha_lowered.
      destruct (alnum_cases c H); congruence.
Qed.

(** X15.  A key that starts with a letter or a digit gets a name that
    starts with a lower-case letter: the capital is lowered, a leading digit
    is spelled out, and a number gets the prefix [num]. *)
Theorem format_starts_with_lower_case (key : string) :
  firstIs isAlnum key = true -> firstIs isLower (format (Some key)) = true.
Proof.
  exact (format_alnum_led key).
Qed.

Lemma format_starts_with_lower_case_witness :
  firstIs isLower (format (Some "2ndPlace")) = true.
Proof.
  apply (format_starts_with_lower_case "2ndPlace"). reflexivity.
Defined.


(** *** The formatted key is in snake_case *)

Local Open Scope list_scope.






Local Open Scope string_scope.



(** X18.  A key made of digits only gets the prefix [num_]. *)
Theorem format_number_key (key : string) :
  allDigits key = true -> format (Some key) = "num_" ++ key.
Proof.
  intros H. unfold format. destruct key as [| c t]; [discriminate H |].
  rewrite H. unfold allDigits in H.
  change (chars (String c t)) with (c :: chars t)%list in H.
  rewrite snakeCase_chars.
  change (chars ("num" ++ String c t))
    with ("n"%char :: "u"%char :: "m"%char :: c :: chars t)%list.
  set (ds := (c :: chars t)%list) in *.
  assert (Hs : forallb snakeChar ds = true).
  { apply (forallb_weaken isDigit); [| assumption].
    intros x Hx. unfold snakeChar, wordChar. now rewrite Hx, orb_true_r. }
  assert (Hc : isDigit c = true) by (cbn [ds forallb] in H; now apply andb_true_iff in H).
  unfold snakeCaseChars.
  rewrite filter_snake by (cbn [forallb]; now rewrite Hs).
  assert (U : hasUnicodeWord ("n"%char :: "u"%char :: "m"%char :: ds)%list = true).
  { unfold ds. cbn [hasUnicodeWord]. rewrite Hc. cbn. now rewrite !orb_true_r. }
  unfold words. rewrite U. unfold unicodeWords.
  change ("n"%char :: "u"%char :: "m"%char :: ds)%list
    with (("n"%char :: ["u"%char; "m"%char]) ++ ds)%list.
  rewrite matchAll_word.
  - rewrite <- (app_nil_r ds) at 1. unfold ds at 1.
    rewrite matchAll_word
      by (apply (shape_stable (c :: chars t) []); [now apply shape_digits | now left]).
    cbn [matchAll].
    change (map (map lowerChar) [["n"%char; "u"%char; "m"%char]; c :: chars t])
      with [["n"%char; "u"%char; "m"%char]; map lowerChar ds].
    rewrite (lowered_snake ds Hs).
    cbn [joinWords app str string_of_list_ascii]. unfold ds.
    unfold chars, str. cbn [string_of_list_ascii append].
    now rewrite string_of_list_ascii_of_string.
  - cbn [app]. rewrite reUnicodeWord_lower by reflexivity.
    unfold ds. cbn [run]. now rewrite (digit_not_lower c Hc).
Qed.

Lemma format_number_key_witness : format (Some "2024") = "num_" ++ "2024".
Proof.
  apply (format_number_key "2024"). reflexivity.
Defined.

(** ** Classes and named tuples of the JavaScript implementation *)

(** X19.  The type written for a member that is an object with keys is the name
    under which [CrystalClass.parse] declares the class of that object. *)
Theorem js_nested_class_declared_under_its_reference
        (opts : JS.options) (x : string) (members : list (string * json)) (n : Z) :
  members <> [] ->
  exists rest,
    JS.classToString (JS.withBaseIndent n) (JS.transformKeys opts x) (JObject members)
    = Some (JS._indent ("class " ++ JS.memberType opts x (JObject members)) n
            ++ LF ++ rest).
Proof.
  intros N. destruct members as [| m members]; [contradiction |].
  cbn [JS.classToString]. unfold JS.classLines.
  change (JS.baseIndent (JS.withBaseIndent n)) with n.
  change (JS._spacing (JS.withBaseIndent n)) with [EmptyString].
  change (JS.memberType opts x (JObject (m :: members)))
    with (JS._formatClassName (JS.transformKeys opts x)).
  cbn [app]. unfold join. cbn [String.concat].
  eexists. reflexivity.
Qed.

Lemma js_nested_class_witness :
  exists rest,
    JS.classToString (JS.withBaseIndent 1) (JS.transformKeys JS.defaultOptions "user")
                     (JObject [("id", int 1)])
    = Some (JS._indent ("class " ++ JS.memberType JS.defaultOptions "user"
                                                  (JObject [("id", int 1)])) 1
            ++ LF ++ rest).
Proof.
  apply (js_nested_class_declared_under_its_reference JS.defaultOptions "user"
                                                       [("id", int 1)] 1).
  discriminate.
Defined.

Lemma namedTuple_pairs (transform : string -> string) (m1 : list (string * json)) :
  forall m2,
    map fst m1 = map fst m2 ->
    map (fun kv => JS.crystalType (snd kv)) m1 = map (fun kv => JS.crystalType (snd kv)) m2 ->
    map (fun '(k, v) => (transform k, JS.crystalType v)) m1
    = map (fun '(k, v) => (transform k, JS.crystalType v)) m2.
Proof.
  induction m1 as [| [k1 v1] m1 IH]; intros [| [k2 v2] m2]; cbn; try discriminate.
  - reflexivity.
  - intros [= -> K] [= T V]. rewrite T. f_equal. now apply IH.
Qed.

(** X20.  Two objects with the same keys, whose values have the same kinds, get
    the same [NamedTuple]; an array of the two has that one type. *)
Theorem js_named_tuple_by_fields
        (transform : string -> string) (m1 m2 : list (string * json)) :
  map fst m1 = map fst m2 ->
  map (fun kv => JS.crystalType (snd kv)) m1 = map (fun kv => JS.crystalType (snd kv)) m2 ->
  JS.namedTupleToString transform (JObject m1) = JS.namedTupleToString transform (JObject m2)
  /\ JS.arrayToString transform (JArray [JObject m1; JObject m2])
     = "Array(" ++ JS.namedTupleToString transform (JObject m1) ++ ")".
Proof.
  intros K T.
  assert (E : JS.namedTupleToString transform (JObject m1)
              = JS.namedTupleToString transform (JObject m2)).
  { unfold JS.namedTupleToString. cbn [JS.keysOf].
    now rewrite (namedTuple_pairs transform m1 m2 K T). }
  split; [exact E |].
  change (unionOf [JS.namedTupleToString transform (JObject m1);
                   JS.namedTupleToString transform (JObject m2)]
          = "Array(" ++ JS.namedTupleToString transform (JObject m1) ++ ")").
  rewrite <- E.
  rewrite (unionOf_constant (JS.namedTupleToString transform (JObject m1)));
    [reflexivity | discriminate |].
  intros y [<- | [<- | []]]; reflexivity.
Qed.

Lemma js_named_tuple_witness :
  JS.namedTupleToString (fun k => k) (JObject [("a", int 1)])
  = JS.namedTupleToString (fun k => k) (JObject [("a", int 2)])
  /\ JS.arrayToString (fun k => k) (JArray [JObject [("a", int 1)]; JObject [("a", int 2)]])
     = "Array(" ++ JS.namedTupleToString (fun k => k) (JObject [("a", int 1)]) ++ ")".
Proof.
  apply (js_named_tuple_by_fields (fun k => k) [("a", int 1)] [("a", int 2)]);
    reflexivity.
Defined.

(** ** Indentation *)

Lemma length_append (a b : string) :
  String.length (a ++ b) = String.length a + String.length b.
Proof.
  induction a as [| c a IH]; cbn; [reflexivity | now rewrite IH].
Qed.

Lemma length_repeat (s : string) (n : nat) :
  String.length (repeat s n) = n * String.length s.
Proof.
  induction n as [| n IH]; cbn; [reflexivity |].
  now rewrite length_append, IH.
Qed.

(** X21.  [indent] and [_indent] write two spaces per level, and nothing for a
    level that is zero or negative. *)
Theorem indent_width (level : Z) (s : string) :
  String.length (TS.indent level) = 2 * Z.to_nat level
  /\ String.length (JS._indent s level) = 2 * Z.to_nat level + String.length s.
Proof.
  unfold TS.indent, JS._indent.
  destruct (Z.leb_spec level 0) as [H | H].
  - replace (Z.to_nat level) with 0 by lia. split; reflexivity.
  - rewrite length_append, !length_repeat. cbn [String.length]. split; lia.
Qed.
